(** * Directive middleware and directive-presence validation

    A shallow embedding of the two programs of the repository:

    - [example-1.ts]: [validateDirectives], the static check that every
      field of the designated object types carries one of the required
      directives (module [Example1], and module [Example1Heap] for the
      same function on a store of references);
    - the envelop plugin [useRedwoodDirectives] with [getDirective] and the
      two directives [requiresAuthDirective] and [uppercaseDirective]
      (module [Redwood]).

    JavaScript values that may be [undefined] are [option]s, exceptions are
    the [Throw] branch of [Result], and the mutable variables a closure
    writes to are threaded as explicit state. *)

From stdpp Require Import base strings list gmap pretty.
From Stdlib Require Import ZArith.

Open Scope string_scope.

(** ** The schema syntax tree (graphql-js [language/ast]) *)

(** A value literal of the schema language.  Only the node kinds that can
    occur as a directive argument are kept. *)
Inductive ValueNode :=
| VariableValue (name : string)
| IntValue (value : Z)
| StringValue (value : string)
| BooleanValue (value : bool)
| NullValue
| EnumValue (value : string).

Record ArgumentNode := {
  arg_name : string;
  arg_value : ValueNode
}.

(** [arguments] is optional on a [DirectiveNode]. *)
Record DirectiveNode := {
  dir_name : string;
  dir_arguments : option (list ArgumentNode)
}.

(** [directives] is optional on a [FieldDefinitionNode]. *)
Record FieldDefinitionNode := {
  fd_name : string;
  fd_directives : option (list DirectiveNode)
}.

(** The definitions a document is made of.  The constructor is the node's
    [kind]; [fields] is optional on the type nodes. *)
Inductive DefinitionNode :=
| ObjectTypeDefinition (name : string) (fields : option (list FieldDefinitionNode))
| ObjectTypeExtension (name : string) (fields : option (list FieldDefinitionNode))
| InterfaceTypeDefinition (name : string) (fields : option (list FieldDefinitionNode))
| InputObjectTypeDefinition (name : string)
| EnumTypeDefinition (name : string) (values : list string)
| ScalarTypeDefinition (name : string)
| UnionTypeDefinition (name : string)
| DirectiveDefinition (name : string)
| SchemaDefinition
| OperationDefinition
| FragmentDefinition (name : string).

Record DocumentNode := {
  definitions : list DefinitionNode
}.

(** [node.kind], the string graphql-js stores in every node. *)
Definition kind (n : DefinitionNode) : string :=
  match n with
  | ObjectTypeDefinition _ _ => "ObjectTypeDefinition"
  | ObjectTypeExtension _ _ => "ObjectTypeExtension"
  | InterfaceTypeDefinition _ _ => "InterfaceTypeDefinition"
  | InputObjectTypeDefinition _ => "InputObjectTypeDefinition"
  | EnumTypeDefinition _ _ => "EnumTypeDefinition"
  | ScalarTypeDefinition _ => "ScalarTypeDefinition"
  | UnionTypeDefinition _ => "UnionTypeDefinition"
  | DirectiveDefinition _ => "DirectiveDefinition"
  | SchemaDefinition => "SchemaDefinition"
  | OperationDefinition => "OperationDefinition"
  | FragmentDefinition _ => "FragmentDefinition"
  end.

(** [Array.prototype.includes] on an array of strings. *)
Definition includes (xs : list string) (x : string) : bool :=
  existsb (String.eqb x) xs.

(** [Array.prototype.some]. *)
Definition some {A} (p : A -> bool) (xs : list A) : bool := existsb p xs.

(** [Array.prototype.find]: the first element satisfying [p], or
    [undefined]. *)
Definition find {A} (p : A -> bool) (xs : list A) : option A := List.find p xs.

(** ** [example-1.ts] *)
Module Example1.

(** *** [visit] *)

(** What a visitor function hands back to graphql-js's [visit]: no [return]
    statement ([undefined]) leaves the node alone, [false] skips the node's
    subtree, [BREAK] stops the traversal, [null] deletes the node and any
    other value replaces it. *)
Inductive VisitorAction :=
| NoAction
| SkipSubtree
| Break
| Remove
| Replace (n : DefinitionNode).

(** A visitor is an object keyed by node kind; the callback is run when a
    node of that kind is entered.  [S] is the state captured by the
    callbacks' closures. *)
Definition Visitor (S : Type) : Type :=
  list (string * (DefinitionNode -> S -> VisitorAction * S)).

Fixpoint getVisitFn {S} (v : Visitor S) (k : string)
  : option (DefinitionNode -> S -> VisitorAction * S) :=
  match v with
  | [] => None
  | (key, fn) :: rest => if String.eqb key k then Some fn else getVisitFn rest k
  end.

(** Modelled from the spec: the traversal of the declarations of a tree
    (graphql-js [visit] is not part of the sources).  The nodes below a
    definition (names, field definitions, directives, arguments, values)
    have kinds of their own, distinct from every definition kind, so a
    visitor keyed by definition kinds is only ever called here.  The result
    is the edited list of definitions and the final state; after [BREAK]
    the remaining definitions are not visited. *)
Fixpoint visitDefinitions {S} (v : Visitor S) (defs : list DefinitionNode) (s : S)
  : list DefinitionNode * S :=
  match defs with
  | [] => ([], s)
  | d :: rest =>
      match getVisitFn v (kind d) with
      | None =>
          let '(rest', s') := visitDefinitions v rest s in (d :: rest', s')
      | Some fn =>
          let '(action, s1) := fn d s in
          match action with
          | NoAction | SkipSubtree =>
              let '(rest', s') := visitDefinitions v rest s1 in (d :: rest', s')
          | Break => (d :: rest, s1)
          | Remove => visitDefinitions v rest s1
          | Replace d' =>
              let '(rest', s') := visitDefinitions v rest s1 in (d' :: rest', s')
          end
      end
  end.

(** Modelled from the spec: [visit(root, visitor)] (graphql-js, not part of
    the sources) returns the tree with the visitor's edits applied, the
    input tree itself is never written to; the closure state is returned
    with it. *)
Definition visit {S} (root : DocumentNode) (v : Visitor S) (s : S)
  : DocumentNode * S :=
  let '(defs, s') := visitDefinitions v (definitions root) s in
  ({| definitions := defs |}, s').

(** *** The script's world: what it prints *)

Record World := { console : list string }.

(** Computations of the script: a state monad over the console. *)
Definition Script (A : Type) : Type := World -> A * World.

Definition ret {A} (a : A) : Script A := fun w => (a, w).

Definition bind {A B} (m : Script A) (k : A -> Script B) : Script B :=
  fun w => let '(a, w') := m w in k a w'.

Notation "x <- m ;; k" := (bind m (fun x => k))
  (at level 100, m at next level, right associativity).

(** [console.info(line)]. *)
Definition console_info (line : string) : Script unit :=
  fun w => (tt, {| console := console w ++ [line] |}).

Fixpoint forEach {A} (xs : list A) (body : A -> Script unit) : Script unit :=
  match xs with
  | [] => ret tt
  | x :: rest => _ <- body x ;; forEach rest body
  end.

(** *** [validateDirectives] *)

(** The body of the [for] loop over the fields of [typeNode]: [result] is
    the array the loop pushes to. *)
Definition checkField (directivesToEnforce : list string) (typeName : string)
    (result : list string) (field : FieldDefinitionNode) : list string :=
  (* field.directives?.some(...) is undefined when there is no list *)
  let hasDirective : option bool :=
    match fd_directives field with
    | None => None
    | Some ds => Some (some (fun directive => includes directivesToEnforce (dir_name directive)) ds)
    end in
  (* !hasDirective: undefined is falsy *)
  if negb (default false hasDirective)
  then result ++ [typeName +:+ "." +:+ fd_name field]
  else result.

(** The [ObjectTypeDefinition(typeNode)] callback.  It has no [return]
    statement. *)
Definition onObjectTypeDefinition (directivesToEnforce typesToCheck : list string)
    (typeNode : DefinitionNode) (result : list string) : VisitorAction * list string :=
  match typeNode with
  | ObjectTypeDefinition name fields =>
      if includes typesToCheck name
      then (NoAction, foldl (checkField directivesToEnforce name) result (default [] fields))
      else (NoAction, result)
  | _ => (NoAction, result)
  end.

Definition validateDirectives (schemaDocumentNode : DocumentNode)
    (directivesToEnforce typesToCheck : list string) : Script (list string) :=
  let result : list string := [] in
  let '(_, result) :=
    visit schemaDocumentNode
      [("ObjectTypeDefinition", onObjectTypeDefinition directivesToEnforce typesToCheck)]
      result in
  ret result.

(** *** The module's top level *)

Definition plainField (name : string) : FieldDefinitionNode :=
  {| fd_name := name; fd_directives := Some [] |}.

Definition fieldWith (name directive : string) : FieldDefinitionNode :=
  {| fd_name := name;
     fd_directives := Some [ {| dir_name := directive; dir_arguments := Some [] |} ] |}.

(** The tree [parse] gives for the schema text of the file. *)
Definition testSchema : DocumentNode :=
  {| definitions :=
       [ DirectiveDefinition "auth";
         DirectiveDefinition "noAuth";
         ObjectTypeDefinition "Query"
           (Some [ plainField "noAuthError";
                   fieldWith "version" "noAuth";
                   fieldWith "me" "auth";
                   plainField "test" ]);
         ObjectTypeDefinition "User"
           (Some [ plainField "id"; plainField "name" ]) ] |}.

(** The double quote character. *)
Definition dquote : string := String (Ascii.ascii_of_nat 34) EmptyString.

Definition main : Script unit :=
  invalidFields <- validateDirectives testSchema ["noAuth"; "auth"] ["Query"; "Mutation"] ;;
  forEach invalidFields (fun f =>
    console_info ("GraphQL field " +:+ dquote +:+ f +:+ dquote
                    +:+ " doesn't have the required direcrives!")).

(** *** The validator as the specification words it *)

Definition directiveNames (f : FieldDefinitionNode) : list string :=
  dir_name <$> default [] (fd_directives f).

(** No attached directive name belongs to the required set. *)
Definition lacksRequired (required : list string) (f : FieldDefinitionNode) : bool :=
  negb (existsb (includes required) (directiveNames f)).

(** The violations of one declaration: none unless it is an object type of
    the target set; else its fields without a required directive, in
    declaration order, as [Type.field]. *)
Definition violationsOf (required targets : list string) (d : DefinitionNode)
  : list string :=
  match d with
  | ObjectTypeDefinition name fields =>
      if includes targets name
      then (fun f => name +:+ "." +:+ fd_name f)
             <$> List.filter (lacksRequired required) (default [] fields)
      else []
  | _ => []
  end.

(** The violation sequence of a tree: the violations of its declarations,
    in the order of the tree. *)
Definition spec_violations (tree : DocumentNode) (required targets : list string)
  : list string :=
  flat_map (violationsOf required targets) (definitions tree).

(** The schema of the specification's example: [Query] with [a], [b @noAuth]
    and [c @auth]. *)
Definition abcSchema : DocumentNode :=
  {| definitions :=
       [ DirectiveDefinition "auth";
         DirectiveDefinition "noAuth";
         ObjectTypeDefinition "Query"
           (Some [ plainField "a"; fieldWith "b" "noAuth"; fieldWith "c" "auth" ]) ] |}.

Definition isObjectTypeDefinition (d : DefinitionNode) : bool :=
  String.eqb (kind d) "ObjectTypeDefinition".

End Example1.

(** ** [example-1.ts] on the heap *)

(** The same program with the objects it handles kept in a store: the
    syntax tree and the arrays are reached through references, as in
    JavaScript, so that a write to the tree a caller passed in, a push to an
    array that is not the function's own, or a line on the console would
    show in the store the call leaves. *)
Module Example1Heap.

Record Store := {
  trees : gmap nat DocumentNode;
  arrays : gmap nat (list string);
  console : list string
}.

(** Computations on the store: a computation, a visitor's callback among
    them, may read and change any part of it. *)
Definition Run (A : Type) : Type := Store -> A * Store.

Definition ret {A} (a : A) : Run A := fun s => (a, s).

Definition bind {A B} (m : Run A) (k : A -> Run B) : Run B :=
  fun s => let '(a, s') := m s in k a s'.

Notation "x <- m ;; k" := (bind m (fun x => k))
  (at level 100, m at next level, right associativity).

(** The tree a reference points to. *)
Definition readTree (ref : nat) : Run DocumentNode :=
  fun s => (default {| definitions := [] |} (trees s !! ref), s).

(** [[]]: a new, empty array, at a reference no array has yet. *)
Definition newArray : Run nat :=
  fun s =>
    let ref := fresh (dom (arrays s)) in
    (ref, {| trees := trees s; arrays := <[ref := []]> (arrays s);
             console := console s |}).

(** [array.push(x)]. *)
Definition push (array : nat) (x : string) : Run unit :=
  fun s =>
    (tt, {| trees := trees s;
            arrays := alter (fun elements : list string => (elements ++ [x])%list) array (arrays s);
            console := console s |}).

(** [console.info(line)]. *)
Definition console_info (line : string) : Run unit :=
  fun s =>
    (tt, {| trees := trees s; arrays := arrays s; console := (console s ++ [line])%list |}).

(** A [for ... of] loop. *)
Fixpoint forEach {A} (xs : list A) (body : A -> Run unit) : Run unit :=
  match xs with
  | [] => ret tt
  | x :: rest => _ <- body x ;; forEach rest body
  end.

(** A visitor's callbacks run on the store. *)
Definition Visitor : Type :=
  list (string * (DefinitionNode -> Run Example1.VisitorAction)).

Fixpoint getVisitFn (v : Visitor) (k : string)
  : option (DefinitionNode -> Run Example1.VisitorAction) :=
  match v with
  | [] => None
  | (key, fn) :: rest => if String.eqb key k then Some fn else getVisitFn rest k
  end.

(** Modelled from the spec: the traversal of the declarations of a tree
    (graphql-js [visit] is not part of the sources), each callback run on
    the store; the result is the edited list of definitions. *)
Fixpoint visitDefinitions (v : Visitor) (defs : list DefinitionNode)
  : Run (list DefinitionNode) :=
  match defs with
  | [] => ret []
  | d :: rest =>
      match getVisitFn v (kind d) with
      | None => rest' <- visitDefinitions v rest ;; ret (d :: rest')
      | Some fn =>
          action <- fn d ;;
          match action with
          | Example1.NoAction | Example1.SkipSubtree =>
              rest' <- visitDefinitions v rest ;; ret (d :: rest')
          | Example1.Break => ret (d :: rest)
          | Example1.Remove => visitDefinitions v rest
          | Example1.Replace d' =>
              rest' <- visitDefinitions v rest ;; ret (d' :: rest')
          end
      end
  end.

(** Modelled from the spec: [visit(root, visitor)] (graphql-js, not part of
    the sources) reads the tree [root] points to, runs the visitor over it
    and returns the edited tree as a new value; by itself it writes
    nothing to the store. *)
Definition visit (root : nat) (v : Visitor) : Run DocumentNode :=
  tree <- readTree root ;;
  defs <- visitDefinitions v (definitions tree) ;;
  ret {| definitions := defs |}.

(** The [ObjectTypeDefinition(typeNode)] callback of [validateDirectives],
    closed over the reference [result]. *)
Definition onObjectTypeDefinition (directivesToEnforce typesToCheck : list string)
    (result : nat) (typeNode : DefinitionNode) : Run Example1.VisitorAction :=
  match typeNode with
  | ObjectTypeDefinition name fields =>
      if includes typesToCheck name
      then
        _ <- forEach (default [] fields) (fun field =>
               let hasDirective : option bool :=
                 match fd_directives field with
                 | None => None
                 | Some ds =>
                     Some (some (fun directive =>
                                   includes directivesToEnforce (dir_name directive)) ds)
                 end in
               if negb (default false hasDirective)
               then push result (name +:+ "." +:+ fd_name field)
               else ret tt) ;;
        ret Example1.NoAction
      else ret Example1.NoAction
  | _ => ret Example1.NoAction
  end.

(** [validateDirectives], given the reference of the tree; it returns the
    reference of the array it made. *)
Definition validateDirectives (schemaDocumentNode : nat)
    (directivesToEnforce typesToCheck : list string) : Run nat :=
  result <- newArray ;;
  _ <- visit schemaDocumentNode
         [("ObjectTypeDefinition",
           onObjectTypeDefinition directivesToEnforce typesToCheck result)] ;;
  ret result.

(** The elements of the array a reference points to. *)
Definition readArray (array : nat) : Run (list string) :=
  fun s => (default [] (arrays s !! array), s).

(** The module's top level, the tree of the file being at [testSchema]. *)
Definition main (testSchema : nat) : Run unit :=
  invalidFields <- validateDirectives testSchema ["noAuth"; "auth"] ["Query"; "Mutation"] ;;
  elements <- readArray invalidFields ;;
  forEach elements (fun f =>
    console_info ("GraphQL field " +:+ Example1.dquote +:+ f +:+ Example1.dquote
                    +:+ " doesn't have the required direcrives!")).

(** The store in which the array at [ref] holds [elements]. *)
Definition withArray (ref : nat) (elements : list string) (s : Store) : Store :=
  {| trees := trees s; arrays := <[ref := elements]> (arrays s); console := console s |}.

(** A store in the middle of a script: the tree of the file at reference
    [0], an array of the caller's at reference [0] and a line on the
    console. *)
Definition busyStore : Store :=
  {| trees := {[ 0 := Example1.testSchema ]};
     arrays := {[ 0 := ["earlier"] ]};
     console := ["started"] |}.

End Example1Heap.

(** ** The directive plugin *)
Module Redwood.

(** *** JavaScript values and exceptions *)

(** The values the resolvers, the context and the decoded arguments are
    made of.  Numbers are kept to the integers; an object has an identity
    [ref], compared by [===], and its own properties in insertion order. *)
#[warnings="-register-all"] Inductive JSValue :=
| JSUndefined
| JSNull
| JSBoolean (b : bool)
| JSNumber (n : Z)
| JSString (s : string)
| JSObject (ref : nat) (props : list (string * JSValue)).

Inductive JSError :=
| TypeError (message : string)
| Error (message : string)
| GraphQLError (message : string).

(** A computation that returns or throws. *)
Inductive Result (A : Type) :=
| Ok (a : A)
| Throw (e : JSError).
Arguments Ok {A} a.
Arguments Throw {A} e.

Definition bindR {A B} (m : Result A) (k : A -> Result B) : Result B :=
  match m with
  | Ok a => k a
  | Throw e => Throw e
  end.

Notation "'let?' x := m 'in' k" := (bindR m (fun x => k))
  (at level 10, x name, m at level 100, k at level 200).

(** ToBoolean. *)
Definition truthy (v : JSValue) : bool :=
  match v with
  | JSUndefined | JSNull => false
  | JSBoolean b => b
  | JSNumber n => negb (n =? 0)%Z
  | JSString s => negb (String.eqb s "")
  | JSObject _ _ => true
  end.

Definition typeof (v : JSValue) : string :=
  match v with
  | JSUndefined => "undefined"
  | JSNull => "object"
  | JSBoolean _ => "boolean"
  | JSNumber _ => "number"
  | JSString _ => "string"
  | JSObject _ _ => "object"
  end.

(** ToString, as a template literal applies it. *)
Definition toString (v : JSValue) : string :=
  match v with
  | JSUndefined => "undefined"
  | JSNull => "null"
  | JSBoolean true => "true"
  | JSBoolean false => "false"
  | JSNumber n => pretty n
  | JSString s => s
  | JSObject _ _ => "[object Object]"
  end.

(** [a === b]: primitives by value, objects by identity. *)
Definition strictEquals (a b : JSValue) : bool :=
  match a, b with
  | JSUndefined, JSUndefined => true
  | JSNull, JSNull => true
  | JSBoolean x, JSBoolean y => Bool.eqb x y
  | JSNumber x, JSNumber y => (x =? y)%Z
  | JSString x, JSString y => String.eqb x y
  | JSObject r1 _, JSObject r2 _ => Nat.eqb r1 r2
  | _, _ => false
  end.

(** The own property [key] of a property list, [undefined] when absent. *)
Fixpoint lookupProp (props : list (string * JSValue)) (key : string) : JSValue :=
  match props with
  | [] => JSUndefined
  | (k, v) :: rest => if String.eqb k key then v else lookupProp rest key
  end.

(** [obj[key] = v] on a property list: an existing property keeps its
    place, a new one goes last. *)
Fixpoint setProp (props : list (string * JSValue)) (key : string) (v : JSValue)
  : list (string * JSValue) :=
  match props with
  | [] => [(key, v)]
  | (k, v0) :: rest =>
      if String.eqb k key then (k, v) :: rest else (k, v0) :: setProp rest key v
  end.

(** [v.key].  Reading a property of [undefined] or [null] throws; the
    property names this program reads ([currentUser], [correntUser],
    [role]) are defined on no primitive's prototype, so on a boolean, a
    number or a string the read gives [undefined]. *)
Definition getProp (v : JSValue) (key : string) : Result JSValue :=
  match v with
  | JSUndefined =>
      Throw (TypeError ("Cannot read properties of undefined (reading '" +:+ key +:+ "')"))
  | JSNull =>
      Throw (TypeError ("Cannot read properties of null (reading '" +:+ key +:+ "')"))
  | JSObject _ props => Ok (lookupProp props key)
  | _ => Ok JSUndefined
  end.

Definition toUpperAscii (c : Ascii.ascii) : Ascii.ascii :=
  let n := Ascii.nat_of_ascii c in
  if (97 <=? n)%nat && (n <=? 122)%nat then Ascii.ascii_of_nat (n - 32) else c.

(** [String.prototype.toUpperCase] on strings of ASCII characters: the
    letters [a] to [z] become [A] to [Z].  A character outside ASCII is left
    as it is here, which is not what the method does: such strings are out
    of the model's reach. *)
Fixpoint toUpperCase (s : string) : string :=
  match s with
  | EmptyString => EmptyString
  | String c rest => String (toUpperAscii c) (toUpperCase rest)
  end.

(** *** The executable schema (graphql-js [type/definition], [type/schema]) *)

Inductive GraphQLInputType :=
| GraphQLNamed (name : string)
| GraphQLList (ofType : GraphQLInputType)
| GraphQLNonNull (ofType : GraphQLInputType).

Definition isNonNullType (t : GraphQLInputType) : bool :=
  match t with
  | GraphQLNonNull _ => true
  | _ => false
  end.

(** A declared argument; [defaultValue] is [None] for [undefined]. *)
Record GraphQLArgument := {
  argdef_name : string;
  argdef_type : GraphQLInputType;
  defaultValue : option JSValue
}.

Record GraphQLDirective := {
  directive_name : string;
  directive_args : list GraphQLArgument
}.

Record GraphQLField := {
  field_name : string;
  astNode : option FieldDefinitionNode
}.

(** The named types of a schema.  Object, interface and input object types
    have a [getFields] method. *)
Inductive GraphQLNamedType :=
| GraphQLObjectType (name : string) (fields : gmap string GraphQLField)
| GraphQLInterfaceType (name : string) (fields : gmap string GraphQLField)
| GraphQLInputObjectType (name : string) (fields : gmap string GraphQLField)
| GraphQLScalarType (name : string)
| GraphQLEnumType (name : string) (values : list string)
| GraphQLUnionType (name : string).

Definition typeName (t : GraphQLNamedType) : string :=
  match t with
  | GraphQLObjectType n _ | GraphQLInterfaceType n _ | GraphQLInputObjectType n _
  | GraphQLScalarType n | GraphQLEnumType n _ | GraphQLUnionType n => n
  end.

Record GraphQLSchema := {
  typeMap : gmap string GraphQLNamedType;
  directives : list GraphQLDirective
}.

(** [schema.getType(name)]. *)
Definition getType (schema : GraphQLSchema) (name : string) : option GraphQLNamedType :=
  typeMap schema !! name.

(** [schema.getDirective(name)]. *)
Definition getDirectiveDef (schema : GraphQLSchema) (name : string) : option GraphQLDirective :=
  find (fun directive => String.eqb (directive_name directive) name) (directives schema).

(** [schemaType.getFields()] on what [getType] returned, cast to
    [GraphQLObjectType]. *)
Definition getFields (schemaType : option GraphQLNamedType)
  : Result (gmap string GraphQLField) :=
  match schemaType with
  | None => Throw (TypeError "Cannot read properties of undefined (reading 'getFields')")
  | Some (GraphQLObjectType _ fields)
  | Some (GraphQLInterfaceType _ fields)
  | Some (GraphQLInputObjectType _ fields) => Ok fields
  | Some _ => Throw (TypeError "schemaType.getFields is not a function")
  end.

Record GraphQLResolveInfo := {
  fieldName : string;
  parentType : GraphQLNamedType;
  schema : GraphQLSchema
}.

(** *** [getDirective] *)

Definition getDirective (info : GraphQLResolveInfo) (name : string)
  : Result (option DirectiveNode) :=
  let schemaType := getType (schema info) (typeName (parentType info)) in
  let? fields := getFields schemaType in
  let field := fields !! fieldName info in
  let? astNode :=
    match field with
    | None => Throw (TypeError "Cannot read properties of undefined (reading 'astNode')")
    | Some field => Ok (astNode field)
    end in
  (* astNode?.directives?.find((d) => d.name.value === name) *)
  let directive :=
    match astNode with
    | None => None
    | Some node =>
        match fd_directives node with
        | None => None
        | Some ds => find (fun d => String.eqb (dir_name d) name) ds
        end
    end in
  (* directive || null *)
  Ok directive.

(** *** The plugin's types *)

Record ResolverPayload := {
  root : JSValue;
  args : list (string * JSValue);
  context : JSValue;
  info : GraphQLResolveInfo
}.

Record ExecutionArgs := {
  ea_schema : GraphQLSchema;
  contextValue : JSValue;
  variableValues : option (list (string * JSValue))
}.

(** The decoded arguments of one directive annotation. *)
Definition DirectiveArgs : Type := list (string * JSValue).

Record RedwoodDirective := {
  rd_schema : string;
  validation :
    option (ExecutionArgs -> DirectiveArgs -> ResolverPayload -> Result unit);
  transformation :
    option (ExecutionArgs -> DirectiveArgs -> ResolverPayload -> JSValue -> Result JSValue)
}.

(** What an execution does that can be observed from outside: the calls of
    the registered callbacks, of the resolver and of [setResult], and the
    lines written to the console. *)
Inductive Event :=
| ConsoleLog (line : string)
| ValidationCalled (directiveArgs : DirectiveArgs)
| ResolverCalled
| TransformationCalled (directiveArgs : DirectiveArgs) (result : JSValue)
| SetResultCalled (newResult : JSValue).

(** [resolved] is the variable of the field being resolved that
    [setResult] assigns to. *)
Record World := {
  events : list Event;
  resolved : JSValue
}.

(** Computations of the plugin: state and exceptions. *)
Definition Exec (A : Type) : Type := World -> Result A * World.

Definition ret {A} (a : A) : Exec A := fun w => (Ok a, w).

Definition bind {A B} (m : Exec A) (k : A -> Exec B) : Exec B :=
  fun w =>
    match m w with
    | (Ok a, w') => k a w'
    | (Throw e, w') => (Throw e, w')
    end.

Notation "x <- m ;; k" := (bind m (fun x => k))
  (at level 100, m at next level, right associativity).

Definition lift {A} (r : Result A) : Exec A := fun w => (r, w).

Definition emit (e : Event) : Exec unit :=
  fun w => (Ok tt, {| events := events w ++ [e]; resolved := resolved w |}).

Definition console_log (line : string) : Exec unit := emit (ConsoleLog line).

(** The argument of the function a resolver hook returns. *)
Record OnResolverDonePayload := {
  result : JSValue;
  setResult : JSValue -> Exec unit
}.

Definition AfterResolver : Type := OnResolverDonePayload -> Exec unit.

Record OnExecuteHooks := {
  onResolverCalled : ResolverPayload -> Exec (option AfterResolver)
}.

Record Plugin := {
  onExecute : ExecutionArgs -> OnExecuteHooks
}.

Section Pipeline.

(** The two entry points of graphql-js that read text and literals: [parse]
    (imported as [gqlParse]) and the coercion of a literal to a declared
    argument type, [undefined] when the literal does not fit. *)
Variable gqlParse : string -> Result DocumentNode.
Variable valueFromAST :
  ValueNode -> GraphQLInputType -> option (list (string * JSValue)) -> option JSValue.

(** *** The argument decoder *)

Definition hasOwnProperty (props : list (string * JSValue)) (key : string) : bool :=
  existsb (fun kv => String.eqb (fst kv) key) props.

(** The argument node supplying [name]; of two nodes of one name the later
    one counts. *)
Definition lookupArgument (argumentNodes : list ArgumentNode) (name : string)
  : option ArgumentNode :=
  find (fun a => String.eqb (arg_name a) name) (rev argumentNodes).

(** Modelled from the spec: the rule for an argument no value is supplied
    for (graphql-js is not part of the sources).  A missing optional
    argument takes its declared default, if any; a missing required
    argument, that is one of non-null type without default, is a decode
    failure. *)
Definition missingArgument (argDef : GraphQLArgument) (coercedValues : DirectiveArgs)
  : Result DirectiveArgs :=
  match defaultValue argDef with
  | Some d => Ok (setProp coercedValues (argdef_name argDef) d)
  | None =>
      if isNonNullType (argdef_type argDef)
      then Throw (GraphQLError
             ("Invalid directive usage: argument '" +:+ argdef_name argDef
                +:+ "' is required, but it was not provided."))
      else Ok coercedValues
  end.

(** Modelled from the spec: the decoding of one declared argument
    (graphql-js is not part of the sources).  A literal is coerced to the
    declared type, a variable reference is resolved in the query's variable
    bindings; a reference to a variable without binding supplies no value;
    a value that does not fit the declared type is a decode failure. *)
Definition coerceArgument (argumentNodes : list ArgumentNode)
    (variables : option (list (string * JSValue)))
    (coercedValues : DirectiveArgs) (argDef : GraphQLArgument) : Result DirectiveArgs :=
  match lookupArgument argumentNodes (argdef_name argDef) with
  | None => missingArgument argDef coercedValues
  | Some argumentNode =>
      let unbound :=
        match arg_value argumentNode with
        | VariableValue v =>
            match variables with
            | None => true
            | Some bindings => negb (hasOwnProperty bindings v)
            end
        | _ => false
        end in
      if unbound then missingArgument argDef coercedValues
      else
        match valueFromAST (arg_value argumentNode) (argdef_type argDef) variables with
        | None =>
            Throw (GraphQLError
              ("Invalid directive usage: argument '" +:+ argdef_name argDef
                 +:+ "' has an invalid value."))
        | Some v => Ok (setProp coercedValues (argdef_name argDef) v)
        end
  end.

(** Modelled from the spec: the declared arguments are decoded in
    declaration order into one mapping (graphql-js is not part of the
    sources); the first failure ends the decoding. *)
Fixpoint coerceArguments (argDefs : list GraphQLArgument)
    (argumentNodes : list ArgumentNode) (variables : option (list (string * JSValue)))
    (coercedValues : DirectiveArgs) : Result DirectiveArgs :=
  match argDefs with
  | [] => Ok coercedValues
  | argDef :: rest =>
      let? coercedValues := coerceArgument argumentNodes variables coercedValues argDef in
      coerceArguments rest argumentNodes variables coercedValues
  end.

(** Modelled from the spec: the Argument Decoder of section 4.2
    (graphql-js [getArgumentValues], not part of the sources). *)
Definition getArgumentValues (def : GraphQLDirective) (node : DirectiveNode)
    (variables : option (list (string * JSValue))) : Result DirectiveArgs :=
  coerceArguments (directive_args def) (default [] (dir_arguments node)) variables [].

(** Modelled from the spec: graphql-js [getDirectiveValues], not part of
    the sources.  It decodes the arguments of the annotation of
    [directiveDef] among [directives], and gives [undefined] when there is
    no such annotation. *)
Definition getDirectiveValues (directiveDef : GraphQLDirective)
    (directives : option (list DirectiveNode))
    (variables : option (list (string * JSValue))) : Result (option DirectiveArgs) :=
  match directives ≫= find (fun d => String.eqb (dir_name d) (directive_name directiveDef)) with
  | Some directiveNode =>
      let? values := getArgumentValues directiveDef directiveNode variables in
      Ok (Some values)
  | None => Ok None
  end.

(** *** [useRedwoodDirectives] *)

(** [getDirectiveValues(directive, { directives: [directiveNode] },
    executionArgs.variableValues) || {}]. *)
Definition decodeDirectiveArgs (directive : GraphQLDirective)
    (directiveNode : DirectiveNode) (executionArgs : ExecutionArgs) : Result DirectiveArgs :=
  let? values :=
    getDirectiveValues directive (Some [directiveNode]) (variableValues executionArgs) in
  Ok (default [] values).

(** The function [onResolverCalled] returns, called when the resolver is
    done. *)
Definition afterResolver (redwoodDirective : RedwoodDirective)
    (executionArgs : ExecutionArgs) (directiveArgs : DirectiveArgs)
    (payload : ResolverPayload) : AfterResolver :=
  fun done =>
    match transformation redwoodDirective with
    | Some transformation =>
        _ <- emit (TransformationCalled directiveArgs (result done)) ;;
        modifiedValue <-
          lift (transformation executionArgs directiveArgs payload (result done)) ;;
        setResult done modifiedValue
    | None => ret tt
    end.

(** The [async onResolverCalled({ args, context, info, root })] of the
    plugin made for [redwoodDirective]; a rejected promise is a [Throw],
    and no returned function is [None]. *)
Definition onResolverCalledOf (redwoodDirective : RedwoodDirective)
    (directiveName : string) (executionArgs : ExecutionArgs)
    (payload : ResolverPayload) : Exec (option AfterResolver) :=
  directiveNode <- lift (getDirective (info payload) directiveName) ;;
  match directiveNode with
  | Some directiveNode =>
      match getDirectiveDef (ea_schema executionArgs) (dir_name directiveNode) with
      | Some directive =>
          directiveArgs <- lift (decodeDirectiveArgs directive directiveNode executionArgs) ;;
          _ <- match validation redwoodDirective with
               | Some validation =>
                   _ <- emit (ValidationCalled directiveArgs) ;;
                   lift (validation executionArgs directiveArgs payload)
               | None => ret tt
               end ;;
          ret (Some (afterResolver redwoodDirective executionArgs directiveArgs payload))
      | None => ret None
      end
  | None => ret None
  end.

(** The name of the first [DirectiveDefinition] of the registration's
    schema text. *)
Definition directiveNameOf (redwoodDirective : RedwoodDirective) : Result string :=
  let? document := gqlParse (rd_schema redwoodDirective) in
  match find (fun v => String.eqb (kind v) "DirectiveDefinition") (definitions document) with
  | Some (DirectiveDefinition name) => Ok name
  | _ => Throw (TypeError "Cannot read properties of undefined (reading 'name')")
  end.

Definition useRedwoodDirectives (redwoodDirective : RedwoodDirective) : Exec Plugin :=
  directiveName <- lift (directiveNameOf redwoodDirective) ;;
  _ <- console_log directiveName ;;
  ret {| onExecute := fun executionArgs =>
           {| onResolverCalled :=
                onResolverCalledOf redwoodDirective directiveName executionArgs |} |}.

End Pipeline.

(** *** The host's side of the plugin boundary *)

(** Modelled from the spec: the explicit result-replacement function of
    the host (envelop is not part of the sources), [setResult]: it assigns
    the result variable of the field being resolved. *)
Definition hostSetResult (newResult : JSValue) : Exec unit :=
  fun w => (Ok tt, {| events := events w ++ [SetResultCalled newResult];
                      resolved := newResult |}).

(** Modelled from the spec: the per-field resolution event of the host
    (envelop is not part of the sources): every hook is called with the
    resolution's payload before the resolver runs, and the functions they
    return are collected. *)
Fixpoint callHooks (hooks : list (ResolverPayload -> Exec (option AfterResolver)))
    (payload : ResolverPayload) : Exec (list AfterResolver) :=
  match hooks with
  | [] => ret []
  | hook :: rest =>
      afterFn <- hook payload ;;
      afterCalls <- callHooks rest payload ;;
      ret (match afterFn with Some f => f :: afterCalls | None => afterCalls end)
  end.

(** Modelled from the spec: the completion hook of the host (envelop is
    not part of the sources): each collected function receives the
    resolver's result as it stands and the result-replacement function. *)
Fixpoint callAfter (afterCalls : list AfterResolver) : Exec unit :=
  match afterCalls with
  | [] => ret tt
  | afterFn :: rest =>
      _ <- (fun w => afterFn {| result := resolved w; setResult := hostSetResult |} w) ;;
      callAfter rest
  end.

(** Modelled from the spec: the resolution of one field by the host
    (envelop is not part of the sources): hooks, then the resolver, then
    the completion hooks; the value of the field is the result as the
    completion hooks leave it. *)
Definition resolveField (hooks : list (ResolverPayload -> Exec (option AfterResolver)))
    (resolver : ResolverPayload -> Result JSValue) (payload : ResolverPayload)
  : Exec JSValue :=
  afterCalls <- callHooks hooks payload ;;
  _ <- emit ResolverCalled ;;
  value <- lift (resolver payload) ;;
  _ <- (fun w => (Ok tt, {| events := events w; resolved := value |})) ;;
  _ <- callAfter afterCalls ;;
  (fun w => (Ok (resolved w), w)).

(** Modelled from the spec: the hooks of the installed plugins for one
    execution (envelop is not part of the sources): [onExecute] is called
    once with the execution arguments, in the order of installation. *)
Definition hooksOf (plugins : list Plugin) (executionArgs : ExecutionArgs)
  : list (ResolverPayload -> Exec (option AfterResolver)) :=
  (fun plugin => onResolverCalled (onExecute plugin executionArgs)) <$> plugins.

(** *** The two directives *)

(** The [validation] of [requiresAuthDirective]. *)
Definition requiresAuthValidation (args : ExecutionArgs) (directiveArgs : DirectiveArgs)
    (resolverParams : ResolverPayload) : Result unit :=
  let? currentUser := getProp (contextValue args) "currentUser" in
  if negb (truthy currentUser) then Throw (Error "Oops, go away!")
  else
    let? correntUser := getProp (contextValue args) "correntUser" in
    (* correntUser && correntUser.role !== directiveArgs.role *)
    let? mismatch :=
      if truthy correntUser
      then let? role := getProp correntUser "role" in
           Ok (negb (strictEquals role (lookupProp directiveArgs "role")))
      else Ok false in
    if mismatch
    then Throw (Error ("You don't have the required role '"
                         +:+ toString (lookupProp directiveArgs "role")
                         +:+ "' for this field!"))
    else Ok tt.

Definition requiresAuthDirective : RedwoodDirective :=
  {| rd_schema := "
    enum Role {
      USER
      ADMIN
    }

    directive @auth(role: Role!) on FIELD_DEFINITION
  ";
     validation := Some requiresAuthValidation;
     transformation := None |}.

(** The [transformation] of [uppercaseDirective]. *)
Definition uppercaseTransformation (args : ExecutionArgs) (directiveArgs : DirectiveArgs)
    (resolverParams : ResolverPayload) (result : JSValue) : Result JSValue :=
  if truthy result && String.eqb (typeof result) "string"
  then match result with
       | JSString s => Ok (JSString (toUpperCase s))
       | _ => Ok result
       end
  else Ok result.

Definition uppercaseDirective : RedwoodDirective :=
  {| rd_schema := "
    directive @uppercase on FIELD_DEFINITION
  ";
     validation := None;
     transformation := Some uppercaseTransformation |}.

(** *** The demonstration of the file *)

(** Modelled from the spec: the parser on the schema texts of the two
    directives (graphql-js [parse] is not part of the sources), and a
    syntax error on any other text. *)
Definition parseFragment (text : string) : Result DocumentNode :=
  if String.eqb text (rd_schema requiresAuthDirective)
  then Ok {| definitions := [ EnumTypeDefinition "Role" ["USER"; "ADMIN"];
                              DirectiveDefinition "auth" ] |}
  else if String.eqb text (rd_schema uppercaseDirective)
  then Ok {| definitions := [ DirectiveDefinition "uppercase" ] |}
  else Throw (GraphQLError "Syntax Error").

(** Modelled from the spec: the coercion of a literal to a declared
    argument type (graphql-js [valueFromAST] is not part of the sources),
    for the types the demonstration declares: [null] does not fit a
    non-null type, a bound variable stands for its value, and a literal
    stands for itself (an enum value for its name). *)
Fixpoint coerceLiteral (valueNode : ValueNode) (type : GraphQLInputType)
    (variables : option (list (string * JSValue))) : option JSValue :=
  match type with
  | GraphQLNonNull ofType =>
      match valueNode with
      | NullValue => None
      | _ =>
          match coerceLiteral valueNode ofType variables with
          | Some JSNull => None
          | r => r
          end
      end
  | GraphQLList _ => None
  | GraphQLNamed _ =>
      match valueNode with
      | VariableValue v =>
          match variables with
          | Some bindings =>
              if hasOwnProperty bindings v then Some (lookupProp bindings v) else None
          | None => None
          end
      | IntValue n => Some (JSNumber n)
      | StringValue s => Some (JSString s)
      | BooleanValue b => Some (JSBoolean b)
      | NullValue => Some JSNull
      | EnumValue s => Some (JSString s)
      end
  end.

Definition annotated (name : string) (ds : list DirectiveNode) : GraphQLField :=
  {| field_name := name;
     astNode := Some {| fd_name := name; fd_directives := Some ds |} |}.

Definition authAnnotation (role : string) : DirectiveNode :=
  {| dir_name := "auth";
     dir_arguments := Some [ {| arg_name := "role"; arg_value := EnumValue role |} ] |}.

Definition uppercaseAnnotation : DirectiveNode :=
  {| dir_name := "uppercase"; dir_arguments := Some [] |}.

Definition queryType : GraphQLNamedType :=
  GraphQLObjectType "Query"
    (list_to_map
       [ ("me", annotated "me" [authAnnotation "USER"]);
         ("simple", annotated "simple" []);
         ("secretPassword", annotated "secretPassword" [authAnnotation "ADMIN"]);
         ("testUpper", annotated "testUpper" [uppercaseAnnotation]) ]).

Definition userType : GraphQLNamedType :=
  GraphQLObjectType "User"
    (list_to_map [ ("id", annotated "id" []); ("name", annotated "name" []) ]).

Definition authDefinition : GraphQLDirective :=
  {| directive_name := "auth";
     directive_args :=
       [ {| argdef_name := "role";
            argdef_type := GraphQLNonNull (GraphQLNamed "Role");
            defaultValue := None |} ] |}.

Definition uppercaseDefinition : GraphQLDirective :=
  {| directive_name := "uppercase"; directive_args := [] |}.

(** The schema [makeExecutableSchema] builds from the type definitions of
    the file (the built-in directives and introspection types left out). *)
Definition testSchema : GraphQLSchema :=
  {| typeMap :=
       list_to_map
         [ ("Query", queryType);
           ("User", userType);
           ("Role", GraphQLEnumType "Role" ["USER"; "ADMIN"]);
           ("String", GraphQLScalarType "String");
           ("ID", GraphQLScalarType "ID");
           ("Boolean", GraphQLScalarType "Boolean") ];
     directives := [ authDefinition; uppercaseDefinition ] |}.

(** The resolvers of [Query]. *)
Definition resolvers (fieldName : string) : ResolverPayload -> Result JSValue :=
  if String.eqb fieldName "simple" then fun _ => Ok (JSString "Hi")
  else if String.eqb fieldName "secretPassword" then fun _ => Ok (JSString "123456")
  else if String.eqb fieldName "testUpper" then fun _ => Ok (JSString "dotan")
  else if String.eqb fieldName "me" then fun p => getProp (context p) "currentUser"
  else fun _ => Ok JSUndefined.

(** The plugins of [test], in the order they are given to [envelop];
    [useSchema] registers no resolver hook. *)
Definition testPlugins : Exec (list Plugin) :=
  auth <- useRedwoodDirectives parseFragment coerceLiteral requiresAuthDirective ;;
  uppercase <- useRedwoodDirectives parseFragment coerceLiteral uppercaseDirective ;;
  ret [auth; uppercase].

Definition queryInfo (fieldName : string) : GraphQLResolveInfo :=
  {| fieldName := fieldName; parentType := queryType; schema := testSchema |}.

Definition queryPayload (fieldName : string) (contextValue : JSValue) : ResolverPayload :=
  {| root := JSUndefined; args := []; context := contextValue;
     info := queryInfo fieldName |}.

Definition testArgs (contextValue : JSValue) : ExecutionArgs :=
  {| ea_schema := testSchema; contextValue := contextValue; variableValues := None |}.

(** The resolution of the field [fieldName] of [Query] in an execution
    with the context [contextValue]. *)
Definition executeQueryField (fieldName : string) (contextValue : JSValue) : Exec JSValue :=
  plugins <- testPlugins ;;
  resolveField (hooksOf plugins (testArgs contextValue)) (resolvers fieldName)
    (queryPayload fieldName contextValue).

Definition dotan : JSValue :=
  JSObject 1 [ ("id", JSString "1"); ("name", JSString "Dotan"); ("role", JSString "USER") ].

Definition initialWorld : World := {| events := []; resolved := JSUndefined |}.

(** The plugins [useRedwoodDirectives] makes for the two directives. *)
Definition authPlugin : Plugin :=
  {| onExecute := fun executionArgs =>
       {| onResolverCalled :=
            onResolverCalledOf coerceLiteral requiresAuthDirective "auth" executionArgs |} |}.

Definition uppercasePlugin : Plugin :=
  {| onExecute := fun executionArgs =>
       {| onResolverCalled :=
            onResolverCalledOf coerceLiteral uppercaseDirective "uppercase" executionArgs |} |}.

(** *** Further schemas *)

(** A resolution whose parent type [Ghost] is not a type of the schema. *)
Definition ghostInfo : GraphQLResolveInfo :=
  {| fieldName := "me"; parentType := GraphQLObjectType "Ghost" ∅; schema := testSchema |}.

(** A resolution of [Query.nowhere], which [Query] does not declare. *)
Definition nowhereInfo : GraphQLResolveInfo := queryInfo "nowhere".

(** A schema whose [Query.runtime] was added at run time and has no
    declaration node, and whose [Query.open] carries [@auth] without any
    argument. *)
Definition extendedSchema : GraphQLSchema :=
  {| typeMap :=
       list_to_map
         [ ("Query",
            GraphQLObjectType "Query"
              (list_to_map
                 [ ("runtime", {| field_name := "runtime"; astNode := None |});
                   ("open",
                    annotated "open" [ {| dir_name := "auth"; dir_arguments := Some [] |} ]) ]));
           ("Role", GraphQLEnumType "Role" ["USER"; "ADMIN"]);
           ("String", GraphQLScalarType "String") ];
     directives := [ authDefinition; uppercaseDefinition ] |}.

Definition extendedInfo (fieldName : string) : GraphQLResolveInfo :=
  {| fieldName := fieldName; parentType := GraphQLObjectType "Query" ∅;
     schema := extendedSchema |}.

Definition extendedPayload (fieldName : string) : ResolverPayload :=
  {| root := JSUndefined; args := []; context := JSObject 0 [];
     info := extendedInfo fieldName |}.

Definition extendedArgs : ExecutionArgs :=
  {| ea_schema := extendedSchema; contextValue := JSObject 0 []; variableValues := None |}.

(** [directive @cache(ttl: Int = 60) on FIELD_DEFINITION], and a field
    annotated [@cache]. *)
Definition cacheDefinition : GraphQLDirective :=
  {| directive_name := "cache";
     directive_args :=
       [ {| argdef_name := "ttl"; argdef_type := GraphQLNamed "Int";
            defaultValue := Some (JSNumber 60) |} ] |}.

Definition cacheAnnotation : DirectiveNode :=
  {| dir_name := "cache"; dir_arguments := Some [] |}.

Definition cacheArgs : ExecutionArgs :=
  {| ea_schema :=
       {| typeMap :=
            list_to_map
              [ ("Query",
                 GraphQLObjectType "Query"
                   (list_to_map [ ("page", annotated "page" [cacheAnnotation]) ]));
                ("String", GraphQLScalarType "String");
                ("Int", GraphQLScalarType "Int") ];
          directives := [ cacheDefinition ] |};
     contextValue := JSObject 0 [];
     variableValues := None |}.

(** The default values a directive definition declares, as the mapping
    from argument name to default. *)
Definition declaredDefaults (directive : GraphQLDirective) : DirectiveArgs :=
  foldl (fun coercedValues argDef =>
           match defaultValue argDef with
           | Some d => setProp coercedValues (argdef_name argDef) d
           | None => coercedValues
           end) [] (directive_args directive).

(** A required argument: of non-null type and without default value. *)
Definition isRequiredArgument (argDef : GraphQLArgument) : bool :=
  isNonNullType (argdef_type argDef) && negb (bool_decide (is_Some (defaultValue argDef))).

(** A hook that does nothing for [payload]: it returns no function and
    leaves the world as it is. *)
Definition passes (payload : ResolverPayload)
    (hook : ResolverPayload -> Exec (option AfterResolver)) : Prop :=
  forall w, hook payload w = (Ok None, w).

(** The world after the events [new]. *)
Definition withEvents (w : World) (new : list Event) : World :=
  {| events := events w ++ new; resolved := resolved w |}.

(** The validation event of a resolution: one call when the registration
    has a validation callback, none otherwise. *)
Definition validationEvents (redwoodDirective : RedwoodDirective)
    (directiveArgs : DirectiveArgs) : list Event :=
  match validation redwoodDirective with
  | Some _ => [ValidationCalled directiveArgs]
  | None => []
  end.

(** An execution on a schema with the types of [testSchema] but without
    any directive definition. *)
Definition undeclaredArgs (contextValue : JSValue) : ExecutionArgs :=
  {| ea_schema := {| typeMap := typeMap testSchema; directives := [] |};
     contextValue := contextValue;
     variableValues := None |}.

(** The strings of ASCII characters, on which [toUpperCase] is the method
    of JavaScript. *)
Fixpoint isAsciiString (s : string) : bool :=
  match s with
  | EmptyString => true
  | String c rest => (Ascii.nat_of_ascii c <? 128)%nat && isAsciiString rest
  end.

(** What the uppercasing leaves of a value. *)
Definition uppercased (value : JSValue) : JSValue :=
  match value with
  | JSString s => JSString (toUpperCase s)
  | _ => value
  end.

End Redwood.

(** * Properties of [validateDirectives] *)
Module Example1Properties.
Import Example1.

Lemma existsb_directiveNames (required : list string) (ds : list DirectiveNode) :
  existsb (includes required) (dir_name <$> ds)
  = some (fun directive => includes required (dir_name directive)) ds.
Proof.
  unfold some. induction ds as [| d ds IH]; simpl; [reflexivity |].
  f_equal. exact IH.
Qed.

(** One run of the loop body either pushes the field's identifier or leaves
    [result] alone, as [lacksRequired] tells. *)
Lemma checkField_spec (required : list string) (typeName : string)
    (result : list string) (field : FieldDefinitionNode) :
  checkField required typeName result field
  = (result ++ (if lacksRequired required field
                then [typeName +:+ "." +:+ fd_name field] else []))%list.
Proof.
  unfold checkField, lacksRequired, directiveNames.
  destruct (fd_directives field) as [ds |]; cbn [default].
  - rewrite existsb_directiveNames.
    unfold some, id.
    destruct (existsb _ ds); simpl; [now rewrite app_nil_r | reflexivity].
  - reflexivity.
Qed.

Lemma foldl_checkField (required : list string) (typeName : string)
    (fields : list FieldDefinitionNode) (result : list string) :
  foldl (checkField required typeName) result fields
  = (result ++ ((fun f => typeName +:+ "." +:+ fd_name f)
                  <$> List.filter (lacksRequired required) fields))%list.
Proof.
  revert result. induction fields as [| f fields IH]; intros result; simpl.
  - now rewrite app_nil_r.
  - rewrite IH, checkField_spec.
    destruct (lacksRequired required f); simpl.
    + now rewrite <- app_assoc.
    + now rewrite app_nil_r.
Qed.

(** The callback never asks [visit] for an edit, and appends the
    violations of the node it is called on. *)
Lemma onObjectTypeDefinition_spec (required targets : list string)
    (d : DefinitionNode) (result : list string) :
  onObjectTypeDefinition required targets d result
  = (NoAction, if isObjectTypeDefinition d
               then (result ++ violationsOf required targets d)%list else result).
Proof.
  destruct d; simpl; try reflexivity.
  destruct (includes targets name).
  - now rewrite foldl_checkField.
  - now rewrite app_nil_r.
Qed.

Lemma violationsOf_other (required targets : list string) (d : DefinitionNode) :
  isObjectTypeDefinition d = false -> violationsOf required targets d = [].
Proof. destruct d; simpl; intros H; try reflexivity. discriminate H. Qed.

(** The traversal hands the definitions back as they were and leaves in
    the state the violations of all of them, in order. *)
Lemma visitDefinitions_validate (required targets : list string)
    (defs : list DefinitionNode) (result : list string) :
  visitDefinitions
    [("ObjectTypeDefinition", onObjectTypeDefinition required targets)] defs result
  = (defs, (result ++ flat_map (violationsOf required targets) defs)%list).
Proof.
  revert result.
  induction defs as [| d defs IH]; intros result; cbn [visitDefinitions getVisitFn flat_map].
  - now rewrite app_nil_r.
  - destruct (isObjectTypeDefinition d) eqn:Hk.
    + assert (Hfn : String.eqb "ObjectTypeDefinition" (kind d) = true)
        by (rewrite String.eqb_sym; exact Hk).
      rewrite Hfn, onObjectTypeDefinition_spec, Hk, IH.
      now rewrite <- app_assoc.
    + assert (Hfn : String.eqb "ObjectTypeDefinition" (kind d) = false)
        by (rewrite String.eqb_sym; exact Hk).
      rewrite Hfn, IH, (violationsOf_other _ _ _ Hk). reflexivity.
Qed.

Lemma validateDirectives_eq (tree : DocumentNode) (required targets : list string)
    (w : World) :
  validateDirectives tree required targets w
  = (spec_violations tree required targets, w).
Proof.
  unfold validateDirectives, visit, spec_violations.
  rewrite visitDefinitions_validate. reflexivity.
Qed.

(** C1: for every declaration tree, required set and target set,
    [validateDirectives] returns exactly the [Type.field] identifiers of the
    fields of the target object types that carry no directive of the
    required set, in declaration order; and on the schema where [Query] has
    [a], [b @noAuth] and [c @auth], with the required set [auth], [noAuth]
    and the target [Query], it returns exactly [Query.a]. *)
Theorem validateDirectives_violations :
  (forall (tree : DocumentNode) (required targets : list string) (w : World),
      validateDirectives tree required targets w
      = (spec_violations tree required targets, w))
  /\ (forall w : World,
         validateDirectives abcSchema ["auth"; "noAuth"] ["Query"] w
         = (["Query.a"], w)).
Proof.
  split.
  - apply validateDirectives_eq.
  - intros w. rewrite validateDirectives_eq. reflexivity.
Qed.

(** C10: only [ObjectTypeDefinition] nodes are inspected: a node of any
    other kind, an object type extension among them, adds nothing to the
    violation sequence, whatever its name and whatever directives its
    fields lack; the result is the one obtained without the node. *)
Theorem validateDirectives_only_object_type_definitions
    (before after : list DefinitionNode) (d : DefinitionNode)
    (required targets : list string) (w : World) :
  isObjectTypeDefinition d = false ->
  validateDirectives {| definitions := before ++ d :: after |} required targets w
  = validateDirectives {| definitions := before ++ after |} required targets w.
Proof.
  intros Hk. rewrite !validateDirectives_eq. unfold spec_violations; simpl.
  rewrite !flat_map_app. simpl.
  now rewrite (violationsOf_other _ _ _ Hk).
Qed.

(** An extension of the target type [Query] whose field [extra] has no
    directive at all is passed over. *)
Lemma validateDirectives_only_object_type_definitions_witness :
  validateDirectives
    {| definitions :=
         [ObjectTypeDefinition "Query" (Some [plainField "a"])]
           ++ ObjectTypeExtension "Query" (Some [plainField "extra"]) :: [] |}
    ["auth"] ["Query"] {| console := [] |}
  = validateDirectives
      {| definitions := [ObjectTypeDefinition "Query" (Some [plainField "a"])] ++ [] |}
      ["auth"] ["Query"] {| console := [] |}.
Proof.
  apply (validateDirectives_only_object_type_definitions
           [ObjectTypeDefinition "Query" (Some [plainField "a"])] []
           (ObjectTypeExtension "Query" (Some [plainField "extra"]))).
  reflexivity.
Defined.

(** The script of the file reports the two fields of [Query] without a
    directive. *)
Example main_output :
  snd (main {| console := [] |})
  = {| console :=
         [ "GraphQL field " +:+ dquote +:+ "Query.noAuthError" +:+ dquote
             +:+ " doesn't have the required direcrives!";
           "GraphQL field " +:+ dquote +:+ "Query.test" +:+ dquote
             +:+ " doesn't have the required direcrives!" ] |}.
Proof. reflexivity. Qed.

End Example1Properties.

(** * [validateDirectives] and the store *)
Module Example1HeapProperties.
Import Example1Heap.

Lemma withArray_withArray (ref : nat) (xs ys : list string) (s : Store) :
  withArray ref ys (withArray ref xs s) = withArray ref ys s.
Proof. unfold withArray. cbn. now rewrite insert_insert_eq. Qed.

Lemma withArray_same (ref : nat) (xs : list string) (s : Store) :
  arrays s !! ref = Some xs -> withArray ref xs s = s.
Proof.
  intros H. unfold withArray. rewrite (insert_id _ _ _ H). now destruct s.
Qed.

(** A push to an array of the store puts the element at its end and
    leaves everything else. *)
Lemma push_spec (ref : nat) (x : string) (xs : list string) (s : Store) :
  arrays s !! ref = Some xs ->
  push ref x s = (tt, withArray ref (xs ++ [x]) s).
Proof.
  intros H. unfold push, withArray. do 2 f_equal.
  apply map_eq. intros i. destruct (decide (i = ref)) as [-> | Hne].
  - now rewrite lookup_alter_eq, lookup_insert_eq, H.
  - now rewrite lookup_alter_ne, lookup_insert_ne.
Qed.

(** The loop over the fields pushes to [result] what the loop body of the
    value-level function appends, and touches nothing else. *)
Lemma forEach_fields (directivesToEnforce : list string) (name : string) (result : nat)
    (fields : list FieldDefinitionNode) (xs : list string) (s : Store) :
  arrays s !! result = Some xs ->
  forEach fields (fun field =>
    let hasDirective : option bool :=
      match fd_directives field with
      | None => None
      | Some ds =>
          Some (some (fun directive => includes directivesToEnforce (dir_name directive)) ds)
      end in
    if negb (default false hasDirective)
    then push result (name +:+ "." +:+ fd_name field)
    else ret tt) s
  = (tt, withArray result
           (foldl (Example1.checkField directivesToEnforce name) xs fields) s).
Proof.
  revert xs s. induction fields as [| field fields IH]; intros xs s Hxs.
  - cbn. now rewrite (withArray_same _ _ _ Hxs).
  - cbn [forEach foldl]. unfold bind at 1. unfold Example1.checkField at 2.
    cbn zeta.
    destruct (negb (default false _)).
    + rewrite (push_spec _ _ _ _ Hxs).
      rewrite (IH (xs ++ [name +:+ "." +:+ fd_name field])%list).
      * now rewrite withArray_withArray.
      * cbn. apply lookup_insert_eq.
    + unfold ret at 1. now apply IH.
Qed.

(** The traversal with the callback of [validateDirectives] hands the
    definitions back as they were, and leaves in [result] the violations
    of all of them after what it held. *)
Lemma visitDefinitions_on_store (directivesToEnforce typesToCheck : list string)
    (result : nat) (defs : list DefinitionNode) (xs : list string) (s : Store) :
  arrays s !! result = Some xs ->
  visitDefinitions
    [("ObjectTypeDefinition",
      onObjectTypeDefinition directivesToEnforce typesToCheck result)] defs s
  = (defs,
     withArray result
       (xs ++ flat_map (Example1.violationsOf directivesToEnforce typesToCheck) defs)%list
       s).
Proof.
  revert xs s. induction defs as [| d defs IH]; intros xs s Hxs.
  - cbn. now rewrite app_nil_r, (withArray_same _ _ _ Hxs).
  - cbn [visitDefinitions getVisitFn flat_map].
    destruct (Example1.isObjectTypeDefinition d) eqn:Hk.
    + assert (Hfn : String.eqb "ObjectTypeDefinition" (kind d) = true)
        by (rewrite String.eqb_sym; exact Hk).
      rewrite Hfn. destruct d; try discriminate Hk.
      cbn [onObjectTypeDefinition Example1.violationsOf].
      destruct (includes typesToCheck name).
      * unfold bind at 1. unfold bind at 1.
        rewrite (forEach_fields _ _ _ _ _ _ Hxs). unfold ret at 1.
        unfold bind at 1.
        rewrite (IH (foldl (Example1.checkField directivesToEnforce name) xs
                       (default [] fields))); [| cbn; apply lookup_insert_eq].
        rewrite withArray_withArray, Example1Properties.foldl_checkField.
        unfold ret. now rewrite <- app_assoc.
      * unfold bind at 1. unfold ret at 1. unfold bind at 1.
        rewrite (IH xs s Hxs). reflexivity.
    + assert (Hfn : String.eqb "ObjectTypeDefinition" (kind d) = false)
        by (rewrite String.eqb_sym; exact Hk).
      rewrite Hfn. unfold bind at 1. rewrite (IH xs s Hxs).
      now rewrite (Example1Properties.violationsOf_other _ _ _ Hk).
Qed.

(** A call on the store: the array it returns is new, holds the
    violations of the tree, and is all that the call changed. *)
Lemma validateDirectives_store (root : nat) (tree : DocumentNode)
    (directivesToEnforce typesToCheck : list string) (s : Store) :
  trees s !! root = Some tree ->
  validateDirectives root directivesToEnforce typesToCheck s
  = (fresh (dom (arrays s)),
     withArray (fresh (dom (arrays s)))
       (Example1.spec_violations tree directivesToEnforce typesToCheck) s).
Proof.
  intros Htree. unfold validateDirectives, newArray. unfold bind at 1.
  unfold bind at 1. unfold visit. unfold bind at 1. unfold readTree.
  cbn [trees]. rewrite Htree. cbn [default from_option id].
  unfold bind at 1.
  rewrite (visitDefinitions_on_store _ _ _ _ []); [| cbn; apply lookup_insert_eq].
  unfold ret. cbn [app]. f_equal. unfold withArray. cbn.
  now rewrite insert_insert_eq.
Qed.

(** C7: [validateDirectives] is pure and deterministic.  Called with the
    reference of a tree, in any store, it leaves every tree of the store as
    it was, the input tree among them, writes nothing to the console, and
    changes no array that existed: the one array it writes to is the new
    one it returns.  Called a second time on the same reference with the
    same parameters, it returns another new array with the same sequence
    in the same order, and leaves the first result as it was.  The sequence
    is the one the value-level function computes from the tree. *)
Theorem validateDirectives_pure_deterministic
    (root : nat) (tree : DocumentNode)
    (directivesToEnforce typesToCheck : list string) (s : Store) (w : Example1.World) :
  trees s !! root = Some tree ->
  let first := validateDirectives root directivesToEnforce typesToCheck s in
  let second := validateDirectives root directivesToEnforce typesToCheck (snd first) in
  let violations :=
    fst (Example1.validateDirectives tree directivesToEnforce typesToCheck w) in
  (trees (snd first) = trees s /\ trees (snd second) = trees s)
  /\ (console (snd first) = console s /\ console (snd second) = console s)
  /\ (arrays s !! fst first = None
      /\ forall ref, ref <> fst first -> arrays (snd first) !! ref = arrays s !! ref)
  /\ (arrays (snd first) !! fst second = None
      /\ forall ref, ref <> fst second ->
                     arrays (snd second) !! ref = arrays (snd first) !! ref)
  /\ arrays (snd first) !! fst first = Some violations
  /\ arrays (snd second) !! fst second = Some violations.
Proof.
  intros Htree. cbn zeta.
  rewrite Example1Properties.validateDirectives_eq. cbn [fst].
  rewrite (validateDirectives_store _ _ _ _ _ Htree). cbn [fst snd].
  set (a1 := fresh (dom (arrays s))).
  set (v := Example1.spec_violations tree directivesToEnforce typesToCheck).
  assert (Htree1 : trees (withArray a1 v s) !! root = Some tree) by exact Htree.
  rewrite (validateDirectives_store _ _ _ _ _ Htree1). cbn [fst snd].
  set (a2 := fresh (dom (arrays (withArray a1 v s)))).
  assert (H1 : arrays s !! a1 = None) by (apply not_elem_of_dom, is_fresh).
  assert (H2 : arrays (withArray a1 v s) !! a2 = None)
    by (apply not_elem_of_dom, is_fresh).
  repeat split; try reflexivity; try assumption.
  - intros ref Hne. cbn. now rewrite lookup_insert_ne.
  - intros ref Hne. cbn. now rewrite (lookup_insert_ne _ a2).
  - cbn. apply lookup_insert_eq.
  - cbn. apply lookup_insert_eq.
Qed.

(** Two calls on the tree of the file, in a store that already holds an
    array and a line of output. *)
Lemma validateDirectives_pure_deterministic_witness :
  let first := validateDirectives 0 ["noAuth"; "auth"] ["Query"; "Mutation"] busyStore in
  let second :=
    validateDirectives 0 ["noAuth"; "auth"] ["Query"; "Mutation"] (snd first) in
  trees (snd second) = trees busyStore
  /\ console (snd second) = console busyStore
  /\ arrays (snd second) !! 0 = Some ["earlier"]
  /\ arrays (snd second) !! fst first = Some ["Query.noAuthError"; "Query.test"]
  /\ arrays (snd second) !! fst second = Some ["Query.noAuthError"; "Query.test"].
Proof.
  cbn zeta.
  destruct (validateDirectives_pure_deterministic 0 Example1.testSchema
              ["noAuth"; "auth"] ["Query"; "Mutation"] busyStore
              {| Example1.console := [] |} eq_refl)
    as ((_ & Htrees) & (_ & Hconsole) & (_ & Hkeep1) & (Hnew2 & Hkeep2) & Hfirst & Hsecond).
  split; [exact Htrees |]. split; [exact Hconsole |].
  assert (Hne : forall ref xs,
             arrays (snd (validateDirectives 0 ["noAuth"; "auth"] ["Query"; "Mutation"]
                            busyStore)) !! ref = Some xs ->
             ref <> fst (validateDirectives 0 ["noAuth"; "auth"] ["Query"; "Mutation"]
                           (snd (validateDirectives 0 ["noAuth"; "auth"]
                                   ["Query"; "Mutation"] busyStore)))).
  { intros ref xs Hsome ->. rewrite Hnew2 in Hsome. discriminate. }
  split; [| split].
  - rewrite Hkeep2, Hkeep1.
    + reflexivity.
    + intros Heq.
      assert (Hnew1 : arrays busyStore
                        !! fst (validateDirectives 0 ["noAuth"; "auth"]
                                  ["Query"; "Mutation"] busyStore) = None)
        by (apply not_elem_of_dom, is_fresh).
      rewrite <- Heq in Hnew1. discriminate Hnew1.
    + apply (Hne 0 ["earlier"]). rewrite Hkeep1; [reflexivity |].
      intros Heq.
      assert (Hnew1 : arrays busyStore
                        !! fst (validateDirectives 0 ["noAuth"; "auth"]
                                  ["Query"; "Mutation"] busyStore) = None)
        by (apply not_elem_of_dom, is_fresh).
      rewrite <- Heq in Hnew1. discriminate Hnew1.
  - rewrite Hkeep2; [exact Hfirst | exact (Hne _ _ Hfirst)].
  - exact Hsecond.
Defined.

(** The script of the file, which prints, does show on the console of the
    store, and leaves the tree and the caller's array alone. *)
Example main_on_store :
  let s := snd (main 0 busyStore) in
  trees s = trees busyStore
  /\ arrays s !! 0 = Some ["earlier"]
  /\ console s
     = [ "started";
         "GraphQL field " +:+ Example1.dquote +:+ "Query.noAuthError" +:+ Example1.dquote
           +:+ " doesn't have the required direcrives!";
         "GraphQL field " +:+ Example1.dquote +:+ "Query.test" +:+ Example1.dquote
           +:+ " doesn't have the required direcrives!" ].
Proof. cbn zeta. repeat split; vm_compute; reflexivity. Qed.

End Example1HeapProperties.

(** * Properties of the directive plugin *)
Module RedwoodProperties.
Import Redwood.

(** ** The directive locator *)

Lemma find_no_match {A} (p : A -> bool) (xs : list A) :
  (forall x, In x xs -> p x = false) -> find p xs = None.
Proof.
  intros H. unfold find. destruct (List.find p xs) as [x |] eqn:E; [| reflexivity].
  apply find_some in E as [Hin Hp]. rewrite (H x Hin) in Hp. discriminate.
Qed.

(** [getDirective] once the parent type and the field are there: the
    first annotation of that name on the declaration node, if any. *)
Lemma getDirective_present (info : GraphQLResolveInfo) (name : string)
    (fields : gmap string GraphQLField) (field : GraphQLField) :
  getFields (getType (schema info) (typeName (parentType info))) = Ok fields ->
  fields !! fieldName info = Some field ->
  getDirective info name
  = Ok ((astNode field ≫= fd_directives)
          ≫= find (fun d => String.eqb (dir_name d) name)).
Proof.
  intros Hfields Hfield. unfold getDirective.
  rewrite Hfields. cbn [bindR]. rewrite Hfield. cbn [bindR].
  destruct (astNode field) as [node |]; [| reflexivity].
  cbn. destruct (fd_directives node); reflexivity.
Qed.

(** C4, as amended: [getDirective] answers "not found" without raising when
    the field has no declaration node, the parent type and the field being
    there; when the schema has no type of the parent type's name, or the
    type has no field of that name, it raises a [TypeError]. *)
Theorem getDirective_not_found_or_raises (info : GraphQLResolveInfo) (name : string) :
  (forall (fields : gmap string GraphQLField) (field : GraphQLField),
      getFields (getType (schema info) (typeName (parentType info))) = Ok fields ->
      fields !! fieldName info = Some field ->
      astNode field = None ->
      getDirective info name = Ok None)
  /\ (getType (schema info) (typeName (parentType info)) = None ->
      exists message, getDirective info name = Throw (TypeError message))
  /\ (forall fields : gmap string GraphQLField,
         getFields (getType (schema info) (typeName (parentType info))) = Ok fields ->
         fields !! fieldName info = None ->
         exists message, getDirective info name = Throw (TypeError message)).
Proof.
  repeat split.
  - intros fields field Hfields Hfield Hnode.
    rewrite (getDirective_present _ _ _ _ Hfields Hfield), Hnode. reflexivity.
  - intros Htype. unfold getDirective. rewrite Htype. cbn. eauto.
  - intros fields Hfields Hfield. unfold getDirective.
    rewrite Hfields. cbn [bindR]. rewrite Hfield. cbn. eauto.
Qed.

(** The three cases on the schemas of the demonstration: [Query.runtime]
    without declaration node, the parent type [Ghost], the field
    [Query.nowhere]. *)
Lemma getDirective_not_found_or_raises_witness :
  getDirective (extendedInfo "runtime") "auth" = Ok None
  /\ (exists message, getDirective ghostInfo "auth" = Throw (TypeError message))
  /\ (exists message, getDirective nowhereInfo "auth" = Throw (TypeError message)).
Proof.
  split; [| split].
  - destruct (getDirective_not_found_or_raises (extendedInfo "runtime") "auth")
      as (Hnone & _ & _).
    eapply Hnone; [reflexivity | vm_compute; reflexivity | reflexivity].
  - destruct (getDirective_not_found_or_raises ghostInfo "auth") as (_ & Htype & _).
    apply Htype. vm_compute. reflexivity.
  - destruct (getDirective_not_found_or_raises nowhereInfo "auth") as (_ & _ & Hfield).
    eapply Hfield; [reflexivity | vm_compute; reflexivity].
Defined.

(** C4 as stated fails: the schema has no type named [Ghost], and
    [getDirective] raises instead of answering "not found". *)
Lemma getDirective_absent_parent_type_raises :
  getType (schema ghostInfo) (typeName (parentType ghostInfo)) = None
  /\ getDirective ghostInfo "auth"
     = Throw (TypeError "Cannot read properties of undefined (reading 'getFields')")
  /\ getDirective ghostInfo "auth" <> Ok None.
Proof.
  assert (H : getType (schema ghostInfo) (typeName (parentType ghostInfo)) = None)
    by (vm_compute; reflexivity).
  split; [exact H |].
  unfold getDirective. rewrite H. cbn. split; [reflexivity | discriminate].
Qed.

(** ** The [@auth] validation *)

(** C9, as amended: when the context's [currentUser] is truthy and its
    [correntUser] is not (it is never set), the validation of [@auth]
    returns successfully, whatever the user's role and whatever the role
    argument of the directive. *)
Theorem requiresAuthValidation_ignores_role
    (executionArgs : ExecutionArgs) (directiveArgs : DirectiveArgs)
    (resolverParams : ResolverPayload) (currentUser correntUser : JSValue) :
  getProp (contextValue executionArgs) "currentUser" = Ok currentUser ->
  truthy currentUser = true ->
  getProp (contextValue executionArgs) "correntUser" = Ok correntUser ->
  truthy correntUser = false ->
  requiresAuthValidation executionArgs directiveArgs resolverParams = Ok tt.
Proof.
  intros Hcur Htruthy Hcor Hfalsy. unfold requiresAuthValidation.
  rewrite Hcur. cbn [bindR]. rewrite Htruthy. cbn [negb].
  rewrite Hcor. cbn [bindR]. rewrite Hfalsy. reflexivity.
Qed.

(** A user of role [USER] passes the validation of [@auth(role: ADMIN)]. *)
Lemma requiresAuthValidation_ignores_role_witness :
  requiresAuthValidation (testArgs (JSObject 0 [("currentUser", dotan)]))
    [("role", JSString "ADMIN")]
    (queryPayload "secretPassword" (JSObject 0 [("currentUser", dotan)]))
  = Ok tt.
Proof.
  apply (requiresAuthValidation_ignores_role _ _ _ dotan JSUndefined);
    reflexivity.
Defined.

(** C9 as stated fails: a [currentUser] that is not [null] but falsy, here
    the empty string, is turned away. *)
Lemma requiresAuthValidation_falsy_user_rejected :
  getProp (JSObject 0 [("currentUser", JSString "")]) "currentUser" = Ok (JSString "")
  /\ requiresAuthValidation (testArgs (JSObject 0 [("currentUser", JSString "")]))
       [("role", JSString "USER")]
       (queryPayload "me" (JSObject 0 [("currentUser", JSString "")]))
     = Throw (Error "Oops, go away!").
Proof. split; reflexivity. Qed.

(** ** The argument decoder *)

Section Decoder.

Variable valueFromAST :
  ValueNode -> GraphQLInputType -> option (list (string * JSValue)) -> option JSValue.

Lemma lookupArgument_absent (argumentNodes : list ArgumentNode) (name : string) :
  (forall a, In a argumentNodes -> arg_name a <> name) ->
  lookupArgument argumentNodes name = None.
Proof.
  intros H. unfold lookupArgument. apply find_no_match.
  intros a Hin. apply in_rev in Hin.
  apply String.eqb_neq. now apply H.
Qed.

(** Every failure of the decoder is a [GraphQLError]. *)
Lemma missingArgument_throws (argDef : GraphQLArgument) (coercedValues : DirectiveArgs)
    (e : JSError) :
  missingArgument argDef coercedValues = Throw e -> exists message, e = GraphQLError message.
Proof.
  unfold missingArgument.
  destruct (defaultValue argDef); [discriminate |].
  destruct (isNonNullType _); [| discriminate].
  intros [= <-]. eauto.
Qed.

Lemma coerceArgument_throws (argumentNodes : list ArgumentNode)
    (variables : option (list (string * JSValue)))
    (coercedValues : DirectiveArgs) (argDef : GraphQLArgument) (e : JSError) :
  coerceArgument valueFromAST argumentNodes variables coercedValues argDef = Throw e ->
  exists message, e = GraphQLError message.
Proof.
  unfold coerceArgument.
  destruct (lookupArgument _ _) as [argumentNode |]; [| apply missingArgument_throws].
  match goal with |- context [if ?b then _ else _] => destruct b end;
    [apply missingArgument_throws |].
  destruct (valueFromAST _ _ _); [discriminate |].
  intros [= <-]. eauto.
Qed.

Lemma missingArgument_required (argDef : GraphQLArgument) (coercedValues : DirectiveArgs) :
  isNonNullType (argdef_type argDef) = true ->
  defaultValue argDef = None ->
  exists message, missingArgument argDef coercedValues = Throw (GraphQLError message).
Proof.
  intros Htype Hdefault. unfold missingArgument. rewrite Hdefault, Htype. eauto.
Qed.

(** Whatever was decoded so far and whatever else is declared or supplied,
    a required argument without supplied value makes the decoding fail. *)
Lemma coerceArguments_required_missing (argumentNodes : list ArgumentNode)
    (variables : option (list (string * JSValue))) (argDef : GraphQLArgument)
    (argDefs : list GraphQLArgument) :
  In argDef argDefs ->
  isNonNullType (argdef_type argDef) = true ->
  defaultValue argDef = None ->
  lookupArgument argumentNodes (argdef_name argDef) = None ->
  forall coercedValues,
  exists message,
    coerceArguments valueFromAST argDefs argumentNodes variables coercedValues
    = Throw (GraphQLError message).
Proof.
  intros Hin Htype Hdefault Hlookup.
  induction argDefs as [| a rest IH]; [destruct Hin |].
  intros coercedValues. cbn [coerceArguments].
  destruct (coerceArgument valueFromAST argumentNodes variables coercedValues a)
    as [coerced | e] eqn:Ha; cbn [bindR].
  - destruct Hin as [-> | Hin]; [| now apply IH].
    unfold coerceArgument in Ha. rewrite Hlookup in Ha.
    destruct (missingArgument_required argDef coercedValues Htype Hdefault) as [m Hm].
    rewrite Hm in Ha. discriminate.
  - destruct (coerceArgument_throws _ _ _ _ _ Ha) as [m ->]. eauto.
Qed.

Lemma getDirectiveDef_name (schema : GraphQLSchema) (name : string)
    (directive : GraphQLDirective) :
  getDirectiveDef schema name = Some directive -> directive_name directive = name.
Proof.
  unfold getDirectiveDef, find. intros H.
  apply find_some in H as [_ H]. now apply String.eqb_eq.
Qed.

(** For the definition found under the annotation's name, the decoded
    arguments are those of [getArgumentValues]: the [|| {}] is not needed. *)
Lemma decodeDirectiveArgs_eq (directive : GraphQLDirective) (directiveNode : DirectiveNode)
    (executionArgs : ExecutionArgs) :
  directive_name directive = dir_name directiveNode ->
  decodeDirectiveArgs valueFromAST directive directiveNode executionArgs
  = getArgumentValues valueFromAST directive directiveNode (variableValues executionArgs).
Proof.
  intros Hname. unfold decodeDirectiveArgs, getDirectiveValues.
  cbn [mbind option_bind find List.find]. rewrite Hname, String.eqb_refl.
  destruct (getArgumentValues _ _ _ _); reflexivity.
Qed.

(** Without supplied values, an argument contributes its default or
    nothing, or fails the decoding. *)
Lemma coerceArguments_no_values (variables : option (list (string * JSValue)))
    (argDefs : list GraphQLArgument) (coercedValues decoded : DirectiveArgs) :
  coerceArguments valueFromAST argDefs [] variables coercedValues = Ok decoded ->
  decoded
  = foldl (fun coercedValues argDef =>
             match defaultValue argDef with
             | Some d => setProp coercedValues (argdef_name argDef) d
             | None => coercedValues
             end) coercedValues argDefs
  /\ forall a, In a argDefs -> isRequiredArgument a = false.
Proof.
  revert coercedValues. induction argDefs as [| a rest IH]; intros coercedValues.
  - cbn. intros [= <-]. split; [reflexivity | intros a []].
  - cbn [coerceArguments foldl]. unfold coerceArgument. cbn [rev lookupArgument find List.find].
    unfold missingArgument, isRequiredArgument.
    destruct (defaultValue a) as [d |] eqn:Hd; cbn [bindR].
    + intros H. destruct (IH _ H) as [-> Hreq]. split; [reflexivity |].
      intros a' [<- | Hin]; [| now apply Hreq].
      rewrite Hd. cbn. now rewrite andb_false_r.
    + destruct (isNonNullType (argdef_type a)) eqn:Ht; cbn [bindR]; [discriminate |].
      intros H. destruct (IH _ H) as [-> Hreq]. split; [reflexivity |].
      intros a' [<- | Hin]; [| now apply Hreq].
      now rewrite Ht.
Qed.

Lemma coerceArguments_nothing_declared_by_default
    (variables : option (list (string * JSValue))) (argDefs : list GraphQLArgument)
    (coercedValues : DirectiveArgs) :
  (forall a, In a argDefs ->
             defaultValue a = None /\ isNonNullType (argdef_type a) = false) ->
  coerceArguments valueFromAST argDefs [] variables coercedValues = Ok coercedValues.
Proof.
  induction argDefs as [| a rest IH]; intros H; [reflexivity |].
  cbn [coerceArguments]. unfold coerceArgument. cbn [rev lookupArgument find List.find].
  unfold missingArgument.
  destruct (H a (or_introl eq_refl)) as [-> ->]. cbn [bindR].
  apply IH. intros a' Hin. apply H. now right.
Qed.

End Decoder.

(** ** The hooks and the host *)

Lemma callHooks_passes (payload : ResolverPayload)
    (hooks : list (ResolverPayload -> Exec (option AfterResolver))) (w : World) :
  Forall (passes payload) hooks -> callHooks hooks payload w = (Ok [], w).
Proof.
  induction 1 as [| hook rest Hhook _ IH]; [reflexivity |].
  cbn [callHooks]. unfold bind at 1. rewrite Hhook.
  unfold bind at 1. rewrite IH. reflexivity.
Qed.

Lemma callHooks_passes_app (payload : ResolverPayload)
    (before hooks : list (ResolverPayload -> Exec (option AfterResolver))) (w : World) :
  Forall (passes payload) before ->
  callHooks (before ++ hooks) payload w = callHooks hooks payload w.
Proof.
  induction 1 as [| hook rest Hhook _ IH]; [reflexivity |].
  cbn [app callHooks]. unfold bind at 1. rewrite Hhook.
  unfold bind at 1. rewrite IH. now destruct (callHooks hooks payload w) as [[] ?].
Qed.

(** A hook that throws ends the resolution: no later hook, no resolver and
    no completion function runs. *)
Lemma resolveField_hook_throws (hook : ResolverPayload -> Exec (option AfterResolver))
    (rest : list (ResolverPayload -> Exec (option AfterResolver)))
    (resolver : ResolverPayload -> Result JSValue) (payload : ResolverPayload)
    (e : JSError) (w w' : World) :
  hook payload w = (Throw e, w') ->
  resolveField (hook :: rest) resolver payload w = (Throw e, w').
Proof.
  intros H. unfold resolveField. cbn [callHooks].
  unfold bind at 1. unfold bind at 1. rewrite H. reflexivity.
Qed.

(** Without completion functions the value of the field is the
    resolver's. *)
Lemma resolveField_all_pass (hooks : list (ResolverPayload -> Exec (option AfterResolver)))
    (resolver : ResolverPayload -> Result JSValue) (payload : ResolverPayload) (w : World) :
  Forall (passes payload) hooks ->
  resolveField hooks resolver payload w
  = match resolver payload with
    | Ok value => (Ok value, {| events := events w ++ [ResolverCalled]; resolved := value |})
    | Throw e => (Throw e, withEvents w [ResolverCalled])
    end.
Proof.
  intros H. unfold resolveField. unfold bind at 1.
  rewrite (callHooks_passes _ _ _ H).
  unfold bind, emit, lift. cbn.
  destruct (resolver payload); reflexivity.
Qed.

Section Hooks.

Variable gqlParse : string -> Result DocumentNode.
Variable valueFromAST :
  ValueNode -> GraphQLInputType -> option (list (string * JSValue)) -> option JSValue.

(** The plugin [useRedwoodDirectives] returns hooks on the directive name
    it read from the registration's schema text. *)
Lemma useRedwoodDirectives_plugin (redwoodDirective : RedwoodDirective)
    (plugin : Plugin) (name : string) (w w' : World) :
  useRedwoodDirectives gqlParse valueFromAST redwoodDirective w = (Ok plugin, w') ->
  directiveNameOf gqlParse redwoodDirective = Ok name ->
  forall executionArgs,
    onResolverCalled (onExecute plugin executionArgs)
    = onResolverCalledOf valueFromAST redwoodDirective name executionArgs.
Proof.
  unfold useRedwoodDirectives. intros H Hname. rewrite Hname in H.
  unfold bind, lift, console_log, emit, ret in H. cbn in H.
  injection H as <- _. reflexivity.
Qed.

Lemma onResolverCalledOf_absent (redwoodDirective : RedwoodDirective) (name : string)
    (executionArgs : ExecutionArgs) (payload : ResolverPayload) :
  getDirective (info payload) name = Ok None ->
  passes payload (onResolverCalledOf valueFromAST redwoodDirective name executionArgs).
Proof.
  intros H w. unfold onResolverCalledOf, bind, lift. rewrite H. reflexivity.
Qed.

(** What the hook does on a field that carries the directive, the
    directive being defined on the executing schema. *)
Lemma onResolverCalledOf_found (redwoodDirective : RedwoodDirective) (name : string)
    (executionArgs : ExecutionArgs) (payload : ResolverPayload)
    (directiveNode : DirectiveNode) (directive : GraphQLDirective) (w : World) :
  getDirective (info payload) name = Ok (Some directiveNode) ->
  getDirectiveDef (ea_schema executionArgs) (dir_name directiveNode) = Some directive ->
  onResolverCalledOf valueFromAST redwoodDirective name executionArgs payload w
  = match decodeDirectiveArgs valueFromAST directive directiveNode executionArgs with
    | Throw e => (Throw e, w)
    | Ok directiveArgs =>
        let afterFn :=
          afterResolver redwoodDirective executionArgs directiveArgs payload in
        match validation redwoodDirective with
        | None => (Ok (Some afterFn), w)
        | Some validation =>
            match validation executionArgs directiveArgs payload with
            | Ok _ => (Ok (Some afterFn), withEvents w [ValidationCalled directiveArgs])
            | Throw e => (Throw e, withEvents w [ValidationCalled directiveArgs])
            end
        end
    end.
Proof.
  intros Hnode Hdef. unfold onResolverCalledOf, bind, lift. rewrite Hnode, Hdef.
  destruct (decodeDirectiveArgs _ _ _ _) as [directiveArgs | e]; [| reflexivity].
  destruct (validation redwoodDirective) as [v |]; [| reflexivity].
  unfold emit, ret, withEvents. cbn.
  destruct (v executionArgs directiveArgs payload); reflexivity.
Qed.

End Hooks.

(** ** The interception pipeline *)

Section Interception.

Variable gqlParse : string -> Result DocumentNode.
Variable valueFromAST :
  ValueNode -> GraphQLInputType -> option (list (string * JSValue)) -> option JSValue.

(** C2: on a field that carries the registration's directive, a validation
    callback that throws makes the hook, and with it the resolution of the
    field, fail with that very error; the only thing that happened is the
    call of the validation: the resolver did not run, the transformation
    was not called, [setResult] was not called and the result variable is
    as it was. *)
Theorem validation_failure_aborts_resolution
    (redwoodDirective : RedwoodDirective) (plugin : Plugin) (w0 w1 : World)
    (name : string) (executionArgs : ExecutionArgs) (payload : ResolverPayload)
    (directiveNode : DirectiveNode) (directive : GraphQLDirective)
    (directiveArgs : DirectiveArgs)
    (validate : ExecutionArgs -> DirectiveArgs -> ResolverPayload -> Result unit)
    (e : JSError) :
  useRedwoodDirectives gqlParse valueFromAST redwoodDirective w0 = (Ok plugin, w1) ->
  directiveNameOf gqlParse redwoodDirective = Ok name ->
  getDirective (info payload) name = Ok (Some directiveNode) ->
  getDirectiveDef (ea_schema executionArgs) (dir_name directiveNode) = Some directive ->
  decodeDirectiveArgs valueFromAST directive directiveNode executionArgs = Ok directiveArgs ->
  validation redwoodDirective = Some validate ->
  validate executionArgs directiveArgs payload = Throw e ->
  forall (others : list Plugin) (resolver : ResolverPayload -> Result JSValue) (w : World),
    onResolverCalled (onExecute plugin executionArgs) payload w
    = (Throw e, withEvents w [ValidationCalled directiveArgs])
    /\ resolveField (hooksOf (plugin :: others) executionArgs) resolver payload w
       = (Throw e, withEvents w [ValidationCalled directiveArgs]).
Proof.
  intros Hplugin Hname Hnode Hdef Hargs Hval Hthrow others resolver w.
  assert (Hhook : onResolverCalled (onExecute plugin executionArgs) payload w
                  = (Throw e, withEvents w [ValidationCalled directiveArgs])).
  { rewrite (useRedwoodDirectives_plugin _ _ _ _ _ _ _ Hplugin Hname).
    rewrite (onResolverCalledOf_found _ _ _ _ _ _ _ _ Hnode Hdef).
    rewrite Hargs. cbn zeta. rewrite Hval, Hthrow. reflexivity. }
  split; [exact Hhook |].
  cbn [hooksOf fmap list_fmap]. now apply resolveField_hook_throws.
Qed.

(** C3: on a field whose declaration carries no annotation of the
    registration's directive name, the hook returns nothing and changes
    nothing, and the resolution of the field is the resolver's: no
    validation, no transformation and no [setResult] is called, and the
    resolver's value is the field's value. *)
Theorem field_without_directive_is_untouched
    (redwoodDirective : RedwoodDirective) (plugin : Plugin) (w0 w1 : World)
    (name : string) (executionArgs : ExecutionArgs) (payload : ResolverPayload)
    (fields : gmap string GraphQLField) (field : GraphQLField) :
  useRedwoodDirectives gqlParse valueFromAST redwoodDirective w0 = (Ok plugin, w1) ->
  directiveNameOf gqlParse redwoodDirective = Ok name ->
  getFields (getType (schema (info payload)) (typeName (parentType (info payload))))
  = Ok fields ->
  fields !! fieldName (info payload) = Some field ->
  (forall declaration annotations d,
      astNode field = Some declaration ->
      fd_directives declaration = Some annotations ->
      In d annotations -> dir_name d <> name) ->
  forall (resolver : ResolverPayload -> Result JSValue) (w : World),
    onResolverCalled (onExecute plugin executionArgs) payload w = (Ok None, w)
    /\ resolveField (hooksOf [plugin] executionArgs) resolver payload w
       = match resolver payload with
         | Ok value =>
             (Ok value, {| events := events w ++ [ResolverCalled]; resolved := value |})
         | Throw e => (Throw e, withEvents w [ResolverCalled])
         end.
Proof.
  intros Hplugin Hname Hfields Hfield Hnone resolver w.
  assert (Habsent : getDirective (info payload) name = Ok None).
  { rewrite (getDirective_present _ _ _ _ Hfields Hfield).
    destruct (astNode field) as [declaration |]; [| reflexivity].
    cbn. destruct (fd_directives declaration) as [annotations |] eqn:Hds; [| reflexivity].
    cbn. rewrite find_no_match; [reflexivity |].
    intros d Hin. apply String.eqb_neq. now apply (Hnone declaration annotations). }
  assert (Hpass : passes payload (onResolverCalled (onExecute plugin executionArgs))).
  { rewrite (useRedwoodDirectives_plugin _ _ _ _ _ _ _ Hplugin Hname).
    now apply onResolverCalledOf_absent. }
  split; [apply Hpass |].
  apply resolveField_all_pass. cbn. repeat constructor. exact Hpass.
Qed.

(** C5, as amended: for an annotation without argument values whose
    directive definition is on the schema, a decoding that succeeds gives a
    mapping that holds exactly the default values the definition declares,
    and the definition has no required argument; the mapping is empty when
    no argument of the definition has a default or is required; and this
    mapping is what the validation callback is called with. *)
Theorem decoded_arguments_without_values
    (executionArgs : ExecutionArgs) (directiveNode : DirectiveNode)
    (directive : GraphQLDirective) :
  getDirectiveDef (ea_schema executionArgs) (dir_name directiveNode) = Some directive ->
  default [] (dir_arguments directiveNode) = [] ->
  (forall directiveArgs,
      decodeDirectiveArgs valueFromAST directive directiveNode executionArgs
      = Ok directiveArgs ->
      directiveArgs = declaredDefaults directive
      /\ (forall a, In a (directive_args directive) -> isRequiredArgument a = false)
      /\ forall redwoodDirective name payload validate w,
           getDirective (info payload) name = Ok (Some directiveNode) ->
           validation redwoodDirective = Some validate ->
           snd (onResolverCalledOf valueFromAST redwoodDirective name executionArgs payload w)
           = withEvents w [ValidationCalled (declaredDefaults directive)])
  /\ ((forall a, In a (directive_args directive) ->
                 defaultValue a = None /\ isNonNullType (argdef_type a) = false) ->
      decodeDirectiveArgs valueFromAST directive directiveNode executionArgs = Ok []).
Proof.
  intros Hdef Hnone.
  rewrite (decodeDirectiveArgs_eq _ _ _ _ (getDirectiveDef_name _ _ _ Hdef)).
  unfold getArgumentValues. rewrite Hnone. split.
  - intros directiveArgs Hargs.
    destruct (coerceArguments_no_values _ _ _ _ _ Hargs) as [-> Hreq].
    split; [reflexivity |]. split; [exact Hreq |].
    intros redwoodDirective name payload validate w Hnode Hval.
    rewrite (onResolverCalledOf_found _ _ _ _ _ _ _ _ Hnode Hdef).
    rewrite (decodeDirectiveArgs_eq _ _ _ _ (getDirectiveDef_name _ _ _ Hdef)).
    unfold getArgumentValues. rewrite Hnone, Hargs. cbn zeta. rewrite Hval.
    now destruct (validate _ _ _).
  - apply coerceArguments_nothing_declared_by_default.
Qed.

(** C6: when the directive definition declares a required argument and the
    annotation supplies no value for it, the decoding fails with a
    [GraphQLError], whatever other arguments are declared or supplied; the
    hook fails with that error before any callback is called, and so does
    the resolution of the field. *)
Theorem missing_required_argument_fails
    (redwoodDirective : RedwoodDirective) (name : string)
    (executionArgs : ExecutionArgs) (payload : ResolverPayload)
    (directiveNode : DirectiveNode) (directive : GraphQLDirective)
    (argDef : GraphQLArgument) :
  getDirective (info payload) name = Ok (Some directiveNode) ->
  getDirectiveDef (ea_schema executionArgs) (dir_name directiveNode) = Some directive ->
  In argDef (directive_args directive) ->
  isNonNullType (argdef_type argDef) = true ->
  defaultValue argDef = None ->
  (forall a, In a (default [] (dir_arguments directiveNode)) ->
             arg_name a <> argdef_name argDef) ->
  exists message,
    getArgumentValues valueFromAST directive directiveNode (variableValues executionArgs)
    = Throw (GraphQLError message)
    /\ forall (others : list (ResolverPayload -> Exec (option AfterResolver)))
              (resolver : ResolverPayload -> Result JSValue) (w : World),
         onResolverCalledOf valueFromAST redwoodDirective name executionArgs payload w
         = (Throw (GraphQLError message), w)
         /\ resolveField
              (onResolverCalledOf valueFromAST redwoodDirective name executionArgs :: others)
              resolver payload w
            = (Throw (GraphQLError message), w).
Proof.
  intros Hnode Hdef Hin Htype Hdefault Habsent.
  destruct (coerceArguments_required_missing valueFromAST _
              (variableValues executionArgs) _ _ Hin Htype Hdefault
              (lookupArgument_absent _ _ Habsent) []) as [message Hfail].
  exists message. split; [exact Hfail |].
  intros others resolver w.
  assert (Hhook : onResolverCalledOf valueFromAST redwoodDirective name executionArgs payload w
                  = (Throw (GraphQLError message), w)).
  { rewrite (onResolverCalledOf_found _ _ _ _ _ _ _ _ Hnode Hdef).
    rewrite (decodeDirectiveArgs_eq _ _ _ _ (getDirectiveDef_name _ _ _ Hdef)).
    unfold getArgumentValues. rewrite Hfail. reflexivity. }
  split; [exact Hhook |]. now apply resolveField_hook_throws.
Qed.

Lemma uppercaseTransformation_uppercased (executionArgs : ExecutionArgs)
    (directiveArgs : DirectiveArgs) (payload : ResolverPayload) (value : JSValue) :
  uppercaseTransformation executionArgs directiveArgs payload value = Ok (uppercased value).
Proof.
  destruct value as [| | b | n | s |]; unfold uppercaseTransformation; cbn;
    try reflexivity.
  - now destruct b.
  - now destruct (negb (n =? 0)%Z).
  - now destruct s.
Qed.

Lemma uppercased_not_string (value : JSValue) :
  typeof value <> "string" -> uppercased value = value.
Proof. destruct value; cbn; congruence. Qed.

(** The resolution of a field for which exactly one hook returns a
    function: that function gets the resolver's value, and what it leaves
    in the result variable is the field's value. *)
Lemma resolveField_one_after (payload : ResolverPayload)
    (before after : list (ResolverPayload -> Exec (option AfterResolver)))
    (hook : ResolverPayload -> Exec (option AfterResolver)) (afterFn : AfterResolver)
    (resolver : ResolverPayload -> Result JSValue) (value : JSValue) (w : World) :
  Forall (passes payload) before ->
  Forall (passes payload) after ->
  hook payload w = (Ok (Some afterFn), w) ->
  resolver payload = Ok value ->
  resolveField (before ++ hook :: after) resolver payload w
  = match afterFn {| result := value; setResult := hostSetResult |}
            {| events := events w ++ [ResolverCalled]; resolved := value |} with
    | (Ok _, w') => (Ok (resolved w'), w')
    | (Throw e, w') => (Throw e, w')
    end.
Proof.
  intros Hbefore Hafter Hhook Hvalue.
  assert (Hhooks : callHooks (before ++ hook :: after) payload w = (Ok [afterFn], w)).
  { rewrite (callHooks_passes_app _ _ _ _ Hbefore).
    cbn [callHooks]. unfold bind at 1. rewrite Hhook.
    unfold bind at 1. rewrite (callHooks_passes _ _ _ Hafter). reflexivity. }
  unfold resolveField. unfold bind at 1. rewrite Hhooks.
  unfold bind, emit, lift. cbn. rewrite Hvalue. cbn.
  unfold bind, ret. cbn.
  destruct (afterFn _ _) as [[[] | e] w']; reflexivity.
Qed.

(** C8: with the plugin of [uppercaseDirective] installed, among plugins
    that pass the field by, the resolution of a field that carries the
    directive gives [DOTAN] when the resolver returns the string [dotan],
    and gives the resolver's value itself when that is not a string. *)
Theorem uppercase_directive_transforms_strings
    (plugin : Plugin) (w0 w1 : World) (name : string)
    (executionArgs : ExecutionArgs) (payload : ResolverPayload)
    (directiveNode : DirectiveNode) (directive : GraphQLDirective)
    (directiveArgs : DirectiveArgs) (before after : list Plugin)
    (resolver : ResolverPayload -> Result JSValue) :
  useRedwoodDirectives gqlParse valueFromAST uppercaseDirective w0 = (Ok plugin, w1) ->
  directiveNameOf gqlParse uppercaseDirective = Ok name ->
  getDirective (info payload) name = Ok (Some directiveNode) ->
  getDirectiveDef (ea_schema executionArgs) (dir_name directiveNode) = Some directive ->
  decodeDirectiveArgs valueFromAST directive directiveNode executionArgs = Ok directiveArgs ->
  Forall (passes payload) (hooksOf before executionArgs) ->
  Forall (passes payload) (hooksOf after executionArgs) ->
  forall w : World,
    (resolver payload = Ok (JSString "dotan") ->
     fst (resolveField (hooksOf (before ++ plugin :: after) executionArgs) resolver payload w)
     = Ok (JSString "DOTAN"))
    /\ (forall value,
           resolver payload = Ok value ->
           typeof value <> "string" ->
           fst (resolveField (hooksOf (before ++ plugin :: after) executionArgs)
                  resolver payload w)
           = Ok value).
Proof.
  intros Hplugin Hname Hnode Hdef Hargs Hbefore Hafter w.
  assert (Hfield : forall value, resolver payload = Ok value ->
            fst (resolveField (hooksOf (before ++ plugin :: after) executionArgs)
                   resolver payload w)
            = Ok (uppercased value)).
  { intros value Hvalue. unfold hooksOf. rewrite fmap_app, fmap_cons.
    rewrite (resolveField_one_after payload _ _ _
               (afterResolver uppercaseDirective executionArgs directiveArgs payload)
               resolver value w Hbefore Hafter); [| | exact Hvalue].
    - unfold afterResolver. cbn [transformation uppercaseDirective result setResult].
      unfold bind, emit, lift. cbn [events resolved].
      rewrite uppercaseTransformation_uppercased. reflexivity.
    - rewrite (useRedwoodDirectives_plugin _ _ _ _ _ _ _ Hplugin Hname).
      rewrite (onResolverCalledOf_found _ _ _ _ _ _ _ _ Hnode Hdef).
      rewrite Hargs. reflexivity. }
  split.
  - intros Hvalue. now rewrite (Hfield _ Hvalue).
  - intros value Hvalue Htype.
    now rewrite (Hfield _ Hvalue), uppercased_not_string.
Qed.

End Interception.

(** ** The demonstration, by the theorems *)

(** The second execution of the file: [me], which carries
    [@auth(role: USER)], with the empty context. *)
Lemma validation_failure_aborts_resolution_witness :
  resolveField (hooksOf [authPlugin; uppercasePlugin] (testArgs (JSObject 0 [])))
    (resolvers "me") (queryPayload "me" (JSObject 0 [])) initialWorld
  = (Throw (Error "Oops, go away!"),
     withEvents initialWorld [ValidationCalled [("role", JSString "USER")]]).
Proof.
  apply (validation_failure_aborts_resolution parseFragment coerceLiteral
           requiresAuthDirective authPlugin initialWorld
           (withEvents initialWorld [ConsoleLog "auth"]) "auth"
           (testArgs (JSObject 0 [])) (queryPayload "me" (JSObject 0 []))
           (authAnnotation "USER") authDefinition [("role", JSString "USER")]
           requiresAuthValidation (Error "Oops, go away!"));
    vm_compute; reflexivity.
Defined.

(** [simple] carries no directive: the plugin of [@auth] passes it by. *)
Lemma field_without_directive_is_untouched_witness :
  resolveField (hooksOf [authPlugin] (testArgs (JSObject 0 [])))
    (resolvers "simple") (queryPayload "simple" (JSObject 0 [])) initialWorld
  = (Ok (JSString "Hi"), {| events := [ResolverCalled]; resolved := JSString "Hi" |}).
Proof.
  refine (proj2 (field_without_directive_is_untouched parseFragment coerceLiteral
           requiresAuthDirective authPlugin initialWorld
           (withEvents initialWorld [ConsoleLog "auth"]) "auth"
           (testArgs (JSObject 0 [])) (queryPayload "simple" (JSObject 0 []))
           _ (annotated "simple" []) _ _ _ _ _ (resolvers "simple") initialWorld)).
  - reflexivity.
  - reflexivity.
  - reflexivity.
  - vm_compute. reflexivity.
  - intros declaration annotations d [= <-] [= <-] [].
Defined.

(** [@uppercase], whose definition declares no argument, is decoded to the
    empty mapping. *)
Lemma decoded_arguments_without_values_witness :
  decodeDirectiveArgs coerceLiteral uppercaseDefinition uppercaseAnnotation
    (testArgs (JSObject 0 []))
  = Ok [].
Proof.
  refine (proj2 (decoded_arguments_without_values coerceLiteral
                   (testArgs (JSObject 0 [])) uppercaseAnnotation uppercaseDefinition
                   _ _) _).
  - reflexivity.
  - reflexivity.
  - intros a [].
Defined.

(** C5 as stated fails: [@cache] is written without argument values, its
    definition [cache(ttl: Int = 60)] is on the schema, and the decoded
    arguments are not the empty mapping. *)
Lemma decoded_arguments_hold_defaults :
  getDirectiveDef (ea_schema cacheArgs) (dir_name cacheAnnotation) = Some cacheDefinition
  /\ dir_arguments cacheAnnotation = Some []
  /\ decodeDirectiveArgs coerceLiteral cacheDefinition cacheAnnotation cacheArgs
     = Ok [("ttl", JSNumber 60)]
  /\ decodeDirectiveArgs coerceLiteral cacheDefinition cacheAnnotation cacheArgs <> Ok [].
Proof. repeat split; try reflexivity. discriminate. Qed.

(** [Query.open] carries [@auth] without the required [role]. *)
Lemma missing_required_argument_fails_witness :
  exists message,
    getArgumentValues coerceLiteral authDefinition
      {| dir_name := "auth"; dir_arguments := Some [] |} (variableValues extendedArgs)
    = Throw (GraphQLError message)
    /\ forall others resolver w,
         onResolverCalledOf coerceLiteral requiresAuthDirective "auth" extendedArgs
           (extendedPayload "open") w
         = (Throw (GraphQLError message), w)
         /\ resolveField
              (onResolverCalledOf coerceLiteral requiresAuthDirective "auth" extendedArgs
                 :: others)
              resolver (extendedPayload "open") w
            = (Throw (GraphQLError message), w).
Proof.
  apply (missing_required_argument_fails coerceLiteral requiresAuthDirective "auth"
           extendedArgs (extendedPayload "open")
           {| dir_name := "auth"; dir_arguments := Some [] |} authDefinition
           {| argdef_name := "role"; argdef_type := GraphQLNonNull (GraphQLNamed "Role");
              defaultValue := None |}).
  - vm_compute. reflexivity.
  - reflexivity.
  - left. reflexivity.
  - reflexivity.
  - reflexivity.
  - intros a [].
Defined.

(** The third execution of the file: [testUpper], whose resolver returns
    [dotan], with both plugins installed; and the same field with a
    resolver that returns a number. *)
Lemma uppercase_directive_transforms_strings_witness :
  fst (resolveField (hooksOf [authPlugin; uppercasePlugin] (testArgs (JSObject 0 [])))
         (resolvers "testUpper") (queryPayload "testUpper" (JSObject 0 [])) initialWorld)
  = Ok (JSString "DOTAN")
  /\ fst (resolveField (hooksOf [authPlugin; uppercasePlugin] (testArgs (JSObject 0 [])))
            (fun _ => Ok (JSNumber 7)) (queryPayload "testUpper" (JSObject 0 []))
            initialWorld)
     = Ok (JSNumber 7).
Proof.
  split.
  - refine (proj1 (uppercase_directive_transforms_strings parseFragment coerceLiteral
             uppercasePlugin initialWorld (withEvents initialWorld [ConsoleLog "uppercase"])
             "uppercase" (testArgs (JSObject 0 [])) (queryPayload "testUpper" (JSObject 0 []))
             uppercaseAnnotation uppercaseDefinition [] [authPlugin] [] (resolvers "testUpper")
             _ _ _ _ _ _ _ initialWorld) _);
      try (vm_compute; reflexivity); repeat constructor.
  - refine (proj2 (uppercase_directive_transforms_strings parseFragment coerceLiteral
             uppercasePlugin initialWorld (withEvents initialWorld [ConsoleLog "uppercase"])
             "uppercase" (testArgs (JSObject 0 [])) (queryPayload "testUpper" (JSObject 0 []))
             uppercaseAnnotation uppercaseDefinition [] [authPlugin] []
             (fun _ => Ok (JSNumber 7))
             _ _ _ _ _ _ _ initialWorld) (JSNumber 7) _ _);
      try (vm_compute; reflexivity); try discriminate; repeat constructor.
Defined.

(** The three executions of [test]. *)
Example test_authenticated :
  fst (executeQueryField "me" (JSObject 0 [("currentUser", dotan)]) initialWorld)
  = Ok dotan.
Proof. reflexivity. Qed.

Example test_not_authenticated :
  fst (executeQueryField "me" (JSObject 0 []) initialWorld)
  = Throw (Error "Oops, go away!").
Proof. reflexivity. Qed.

Example test_uppercase :
  fst (executeQueryField "testUpper" (JSObject 0 []) initialWorld)
  = Ok (JSString "DOTAN").
Proof. reflexivity. Qed.

End RedwoodProperties.

(** * Further properties of [validateDirectives] *)
Module Example1Coverage.
Import Example1 Example1Properties.

Lemma includes_In (xs : list string) (x : string) :
  includes xs x = true <-> In x xs.
Proof.
  unfold includes. rewrite existsb_exists. split.
  - intros (y & Hin & Heq). apply String.eqb_eq in Heq. now subst.
  - intros Hin. exists x. split; [exact Hin | apply String.eqb_refl].
Qed.

Lemma includes_ext (xs ys : list string) :
  (forall x, In x xs <-> In x ys) -> forall x, includes xs x = includes ys x.
Proof.
  intros H x. apply eq_true_iff_eq. now rewrite !includes_In.
Qed.

Lemma lacksRequired_iff (required : list string) (field : FieldDefinitionNode) :
  lacksRequired required field = true
  <-> forall d, In d (default [] (fd_directives field)) -> ~ In (dir_name d) required.
Proof.
  unfold lacksRequired, directiveNames. rewrite negb_true_iff.
  rewrite <- not_true_iff_false, existsb_exists. split.
  - intros Hnone d Hd Hreq. apply Hnone. exists (dir_name d). split.
    + apply list_elem_of_In, list_elem_of_fmap_2, list_elem_of_In, Hd.
    + now apply includes_In.
  - intros Hnone (x & Hx & Hreq).
    apply list_elem_of_In, list_elem_of_fmap in Hx as (d & -> & Hd).
    apply (Hnone d); [now apply list_elem_of_In | now apply includes_In].
Qed.

Lemma In_violationsOf (required targets : list string) (d : DefinitionNode) (id : string) :
  In id (violationsOf required targets d)
  <-> exists name fields field,
        d = ObjectTypeDefinition name fields
        /\ In name targets
        /\ In field (default [] fields)
        /\ (forall a, In a (default [] (fd_directives field)) -> ~ In (dir_name a) required)
        /\ id = name +:+ "." +:+ fd_name field.
Proof.
  split.
  - destruct d as [name fields | | | | | | | | | |]; cbn [violationsOf];
      try (intros []).
    destruct (includes targets name) eqn:Hname; [| intros []].
    intros Hin. apply list_elem_of_In, list_elem_of_fmap in Hin as (field & -> & Hfield).
    apply list_elem_of_In, filter_In in Hfield as [Hfield Hlacks].
    exists name, fields, field. repeat split; try assumption.
    + now apply includes_In.
    + now apply lacksRequired_iff.
  - intros (name & fields & field & -> & Hname & Hfield & Hlacks & ->).
    cbn [violationsOf]. apply includes_In in Hname. rewrite Hname.
    apply list_elem_of_In, list_elem_of_fmap. exists field. split; [reflexivity |].
    apply list_elem_of_In, filter_In.
    split; [exact Hfield | now apply lacksRequired_iff].
Qed.

(** X1: an identifier is reported exactly when it is [Type.field] for a
    field of an object type definition of the tree whose name is to be
    checked, none of whose directives is one of the directives to enforce;
    a field without a directive list is such a field. *)
Theorem validateDirectives_reports_iff
    (tree : DocumentNode) (required targets : list string) (w : World) (id : string) :
  In id (fst (validateDirectives tree required targets w))
  <-> exists name fields field,
        In (ObjectTypeDefinition name fields) (definitions tree)
        /\ In name targets
        /\ In field (default [] fields)
        /\ (forall a, In a (default [] (fd_directives field)) -> ~ In (dir_name a) required)
        /\ id = name +:+ "." +:+ fd_name field.
Proof.
  rewrite validateDirectives_eq. cbn [fst]. unfold spec_violations.
  rewrite in_flat_map. split.
  - intros (d & Hd & Hid).
    apply In_violationsOf in Hid as (name & fields & field & -> & H).
    exists name, fields, field. tauto.
  - intros (name & fields & field & Hd & H).
    exists (ObjectTypeDefinition name fields). split; [exact Hd |].
    apply In_violationsOf. exists name, fields, field. tauto.
Qed.

(** X2: the result is empty, so that a build may pass, exactly when every
    field of every checked object type definition carries at least one of
    the directives to enforce. *)
Theorem validateDirectives_empty_iff
    (tree : DocumentNode) (required targets : list string) (w : World) :
  fst (validateDirectives tree required targets w) = []
  <-> forall name fields field,
        In (ObjectTypeDefinition name fields) (definitions tree) ->
        In name targets ->
        In field (default [] fields) ->
        exists a, In a (default [] (fd_directives field)) /\ In (dir_name a) required.
Proof.
  split.
  - intros Hempty name fields field Hd Hname Hfield.
    destruct (lacksRequired required field) eqn:Hlacks.
    + exfalso.
      assert (Hin : In (name +:+ "." +:+ fd_name field)
                      (fst (validateDirectives tree required targets w))).
      { apply validateDirectives_reports_iff. exists name, fields, field.
        repeat split; try assumption. now apply lacksRequired_iff. }
      rewrite Hempty in Hin. destruct Hin.
    + unfold lacksRequired, directiveNames in Hlacks.
      apply negb_false_iff, existsb_exists in Hlacks as (x & Hx & Hreq).
      apply list_elem_of_In, list_elem_of_fmap in Hx as (a & -> & Ha).
      exists a. split; [now apply list_elem_of_In | now apply includes_In].
  - intros Hall.
    destruct (fst (validateDirectives tree required targets w)) as [| id rest] eqn:Hres;
      [reflexivity | exfalso].
    assert (Hin : In id (fst (validateDirectives tree required targets w)))
      by (rewrite Hres; now left).
    apply validateDirectives_reports_iff in Hin
      as (name & fields & field & Hd & Hname & Hfield & Hlacks & _).
    destruct (Hall name fields field Hd Hname Hfield) as (a & Ha & Hreq).
    exact (Hlacks a Ha Hreq).
Qed.

(** The schema of the file with a directive on every field of [Query]. *)
Lemma validateDirectives_empty_iff_witness :
  fst (validateDirectives
         {| definitions :=
              [ObjectTypeDefinition "Query"
                 (Some [fieldWith "version" "noAuth"; fieldWith "me" "auth"])] |}
         ["noAuth"; "auth"] ["Query"; "Mutation"] {| console := [] |})
  = [].
Proof.
  apply (proj2 (validateDirectives_empty_iff _ _ _ _)).
  intros name fields field [[= <- <-] | []] _ [<- | [<- | []]].
  - exists {| dir_name := "noAuth"; dir_arguments := Some [] |}. cbn. tauto.
  - exists {| dir_name := "auth"; dir_arguments := Some [] |}. cbn. tauto.
Defined.

(** X3: the violations of a tree made of two lists of definitions are those
    of the first list followed by those of the second. *)
Theorem validateDirectives_app
    (defs1 defs2 : list DefinitionNode) (required targets : list string) (w : World) :
  fst (validateDirectives {| definitions := defs1 ++ defs2 |} required targets w)
  = (fst (validateDirectives {| definitions := defs1 |} required targets w)
       ++ fst (validateDirectives {| definitions := defs2 |} required targets w))%list.
Proof.
  rewrite !validateDirectives_eq. unfold spec_violations. cbn.
  apply flat_map_app.
Qed.

Lemma filter_sublist {A} (p q : A -> bool) (xs : list A) :
  (forall x, p x = true -> q x = true) ->
  sublist (List.filter p xs) (List.filter q xs).
Proof.
  intros Hpq. induction xs as [| x xs IH]; cbn; [constructor |].
  destruct (p x) eqn:Hp.
  - rewrite (Hpq x Hp). now constructor.
  - destruct (q x); [now constructor | exact IH].
Qed.

Lemma flat_map_sublist {A B} (f g : A -> list B) (xs : list A) :
  (forall x, sublist (f x) (g x)) -> sublist (flat_map f xs) (flat_map g xs).
Proof.
  intros H. induction xs as [| x xs IH]; cbn; [constructor |].
  now apply sublist_app.
Qed.

(** X4: enforcing further directives can only take violations away: when
    every directive of [required] is also in [required'], the violations
    under [required'] are a subsequence of those under [required]. *)
Theorem validateDirectives_more_directives
    (tree : DocumentNode) (required required' targets : list string) (w : World) :
  (forall x, In x required -> In x required') ->
  sublist (fst (validateDirectives tree required' targets w))
          (fst (validateDirectives tree required targets w)).
Proof.
  intros Hsub. rewrite !validateDirectives_eq. cbn [fst]. unfold spec_violations.
  apply flat_map_sublist. intros d.
  destruct d as [name fields | | | | | | | | | |]; cbn [violationsOf]; try constructor.
  destruct (includes targets name); [| constructor].
  apply fmap_sublist, filter_sublist. intros field Hlacks.
  apply lacksRequired_iff. intros a Ha Hreq.
  exact (proj1 (lacksRequired_iff _ _) Hlacks a Ha (Hsub _ Hreq)).
Qed.

Lemma validateDirectives_more_directives_witness :
  sublist
    (fst (validateDirectives testSchema ["noAuth"; "auth"] ["Query"] {| console := [] |}))
    (fst (validateDirectives testSchema ["auth"] ["Query"] {| console := [] |})).
Proof.
  apply validateDirectives_more_directives. intros x [<- | []]. cbn. tauto.
Defined.

(** X5: checking further types can only add violations: when every type
    of [targets] is also in [targets'], the violations for [targets] are a
    subsequence of those for [targets']. *)
Theorem validateDirectives_more_types
    (tree : DocumentNode) (required targets targets' : list string) (w : World) :
  (forall x, In x targets -> In x targets') ->
  sublist (fst (validateDirectives tree required targets w))
          (fst (validateDirectives tree required targets' w)).
Proof.
  intros Hsub. rewrite !validateDirectives_eq. cbn [fst]. unfold spec_violations.
  apply flat_map_sublist. intros d.
  destruct d as [name fields | | | | | | | | | |]; cbn [violationsOf]; try constructor.
  destruct (includes targets name) eqn:Hname; [| apply sublist_nil_l].
  apply includes_In, Hsub, includes_In in Hname. rewrite Hname. reflexivity.
Qed.

Lemma validateDirectives_more_types_witness :
  sublist
    (fst (validateDirectives testSchema ["auth"] ["Query"] {| console := [] |}))
    (fst (validateDirectives testSchema ["auth"] ["User"; "Query"] {| console := [] |})).
Proof.
  apply validateDirectives_more_types. intros x [<- | []]. cbn. tauto.
Defined.

(** X6: the two parameter arrays count as sets: arrays with the same
    elements, in any order and with any repetition, give the same result. *)
Theorem validateDirectives_parameters_as_sets
    (tree : DocumentNode) (required required' targets targets' : list string) (w : World) :
  (forall x, In x required <-> In x required') ->
  (forall x, In x targets <-> In x targets') ->
  validateDirectives tree required targets w
  = validateDirectives tree required' targets' w.
Proof.
  intros Hreq Htargets. rewrite !validateDirectives_eq. f_equal.
  unfold spec_violations. apply flat_map_ext. intros d.
  destruct d as [name fields | | | | | | | | | |]; cbn [violationsOf]; try reflexivity.
  rewrite (includes_ext _ _ Htargets name).
  destruct (includes targets' name); [| reflexivity].
  f_equal. apply filter_ext. intros field.
  apply eq_true_iff_eq. rewrite !lacksRequired_iff.
  split; intros H a Ha Hin; apply (H a Ha); now apply Hreq.
Qed.

Lemma validateDirectives_parameters_as_sets_witness :
  validateDirectives testSchema ["noAuth"; "auth"] ["Query"; "Mutation"] {| console := [] |}
  = validateDirectives testSchema ["auth"; "noAuth"; "auth"] ["Mutation"; "Query"]
      {| console := [] |}.
Proof.
  apply validateDirectives_parameters_as_sets; intros x; cbn; tauto.
Defined.

End Example1Coverage.

(** * Further properties of the directive plugin *)
Module RedwoodCoverage.
Import Redwood RedwoodProperties.

(** ** [getDirective] *)

Lemma find_first {A} (p : A -> bool) (xs : list A) (x : A) :
  find p xs = Some x ->
  p x = true
  /\ exists before after,
       xs = (before ++ x :: after)%list /\ forall a, In a before -> p a = false.
Proof.
  unfold find. induction xs as [| y xs IH]; cbn; [discriminate |].
  destruct (p y) eqn:Hy.
  - intros [= ->]. split; [exact Hy |]. exists [], xs. split; [reflexivity | intros a []].
  - intros H. destruct (IH H) as (Hx & before & after & -> & Hbefore).
    split; [exact Hx |]. exists (y :: before), after. split; [reflexivity |].
    intros a [<- | Hin]; [exact Hy | now apply Hbefore].
Qed.

(** X7: the annotation [getDirective] returns has the name asked for, sits
    on the declaration node of the resolved field, and is the first of
    that name there. *)
Theorem getDirective_returns_first_annotation
    (info : GraphQLResolveInfo) (name : string) (d : DirectiveNode) :
  getDirective info name = Ok (Some d) ->
  dir_name d = name
  /\ exists fields field declaration before after,
       getFields (getType (schema info) (typeName (parentType info))) = Ok fields
       /\ fields !! fieldName info = Some field
       /\ astNode field = Some declaration
       /\ fd_directives declaration = Some (before ++ d :: after)%list
       /\ forall a, In a before -> dir_name a <> name.
Proof.
  unfold getDirective.
  destruct (getFields _) as [fields | e] eqn:Hfields; cbn [bindR]; [| discriminate].
  destruct (fields !! fieldName info) as [field |] eqn:Hfield; cbn [bindR]; [| discriminate].
  destruct (astNode field) as [declaration |] eqn:Hnode; [| discriminate].
  destruct (fd_directives declaration) as [annotations |] eqn:Hds; [| discriminate].
  intros [= Hfind]. apply find_first in Hfind as (Hname & before & after & -> & Hbefore).
  split; [now apply String.eqb_eq |].
  exists fields, field, declaration, before, after. repeat split; try assumption.
  intros a Ha. apply String.eqb_neq. now apply Hbefore.
Qed.

Lemma getDirective_returns_first_annotation_witness :
  dir_name (authAnnotation "ADMIN") = "auth"
  /\ exists fields field declaration before after,
       getFields (getType (schema (queryInfo "secretPassword"))
                    (typeName (parentType (queryInfo "secretPassword")))) = Ok fields
       /\ fields !! fieldName (queryInfo "secretPassword") = Some field
       /\ astNode field = Some declaration
       /\ fd_directives declaration = Some (before ++ authAnnotation "ADMIN" :: after)%list
       /\ forall a, In a before -> dir_name a <> "auth".
Proof.
  apply (getDirective_returns_first_annotation (queryInfo "secretPassword")).
  vm_compute. reflexivity.
Defined.

(** X8: [getDirective] returns, with an annotation or with [null], exactly
    when the schema has a type of the parent type's name that has fields
    and the resolved field is one of them; in every other case it throws. *)
Theorem getDirective_returns_iff (info : GraphQLResolveInfo) (name : string) :
  (exists r, getDirective info name = Ok r)
  <-> exists fields field,
        getFields (getType (schema info) (typeName (parentType info))) = Ok fields
        /\ fields !! fieldName info = Some field.
Proof.
  split.
  - intros [r H]. unfold getDirective in H.
    destruct (getFields _) as [fields | e]; cbn [bindR] in H; [| discriminate].
    destruct (fields !! fieldName info) as [field |] eqn:Hfield; cbn [bindR] in H;
      [| discriminate].
    eauto.
  - intros (fields & field & Hfields & Hfield).
    rewrite (getDirective_present _ _ _ _ Hfields Hfield). eauto.
Qed.

(** ** The callbacks of the two directives *)

(** The validation of [@auth] on a context that is an object. *)
Lemma requiresAuthValidation_object (executionArgs : ExecutionArgs)
    (directiveArgs : DirectiveArgs) (resolverParams : ResolverPayload)
    (ref : nat) (props : list (string * JSValue)) :
  contextValue executionArgs = JSObject ref props ->
  requiresAuthValidation executionArgs directiveArgs resolverParams
  = if negb (truthy (lookupProp props "currentUser"))
    then Throw (Error "Oops, go away!")
    else if truthy (lookupProp props "correntUser")
              && negb (match getProp (lookupProp props "correntUser") "role" with
                       | Ok role => strictEquals role (lookupProp directiveArgs "role")
                       | Throw _ => false
                       end)
         then Throw (Error ("You don't have the required role '"
                              +:+ toString (lookupProp directiveArgs "role")
                              +:+ "' for this field!"))
         else Ok tt.
Proof.
  intros Hctx. unfold requiresAuthValidation. rewrite Hctx. cbn [getProp bindR].
  destruct (truthy (lookupProp props "currentUser")); cbn [negb]; [| reflexivity].
  destruct (lookupProp props "correntUser") as [| | b | n | s | r ps]; cbn;
    try reflexivity.
  - now destruct b.
  - now destruct (negb (n =? 0)%Z).
  - now destruct (negb (String.eqb s "")).
Qed.

(** X9: a context without a truthy [currentUser] is turned away with the
    error [Oops, go away!], whatever the directive's arguments and whatever
    else the context holds. *)
Theorem requiresAuthValidation_unauthenticated
    (executionArgs : ExecutionArgs) (directiveArgs : DirectiveArgs)
    (resolverParams : ResolverPayload) (currentUser : JSValue) :
  getProp (contextValue executionArgs) "currentUser" = Ok currentUser ->
  truthy currentUser = false ->
  requiresAuthValidation executionArgs directiveArgs resolverParams
  = Throw (Error "Oops, go away!").
Proof.
  intros Hcur Hfalsy. unfold requiresAuthValidation.
  rewrite Hcur. cbn [bindR]. rewrite Hfalsy. reflexivity.
Qed.

Lemma requiresAuthValidation_unauthenticated_witness :
  requiresAuthValidation
    (testArgs (JSObject 0 [("currentUser", JSNull); ("correntUser", dotan)]))
    [("role", JSString "USER")]
    (queryPayload "me" (JSObject 0 [("currentUser", JSNull); ("correntUser", dotan)]))
  = Throw (Error "Oops, go away!").
Proof.
  apply (requiresAuthValidation_unauthenticated _ _ _ JSNull); reflexivity.
Defined.

(** X10: when the execution has no context value at all ([undefined] or
    [null]), the validation of [@auth] does not give its own error: reading
    [currentUser] throws a [TypeError]. *)
Theorem requiresAuthValidation_without_context
    (executionArgs : ExecutionArgs) (directiveArgs : DirectiveArgs)
    (resolverParams : ResolverPayload) :
  contextValue executionArgs = JSUndefined \/ contextValue executionArgs = JSNull ->
  exists message,
    requiresAuthValidation executionArgs directiveArgs resolverParams
    = Throw (TypeError message).
Proof.
  unfold requiresAuthValidation. intros [-> | ->]; cbn; eauto.
Qed.

Lemma requiresAuthValidation_without_context_witness :
  exists message,
    requiresAuthValidation (testArgs JSUndefined) [("role", JSString "USER")]
      (queryPayload "me" JSUndefined)
    = Throw (TypeError message).
Proof.
  apply requiresAuthValidation_without_context. left. reflexivity.
Defined.

(** X11: on a context that is an object, the validation of [@auth] accepts
    exactly when [currentUser] is truthy and [correntUser] is either falsy
    or has a [role] strictly equal to the directive's [role] argument: the
    role that is compared is never the one of [currentUser]. *)
Theorem requiresAuthValidation_accepts_iff
    (executionArgs : ExecutionArgs) (directiveArgs : DirectiveArgs)
    (resolverParams : ResolverPayload) (ref : nat) (props : list (string * JSValue)) :
  contextValue executionArgs = JSObject ref props ->
  requiresAuthValidation executionArgs directiveArgs resolverParams = Ok tt
  <-> truthy (lookupProp props "currentUser") = true
      /\ (truthy (lookupProp props "correntUser") = false
          \/ exists role,
               getProp (lookupProp props "correntUser") "role" = Ok role
               /\ strictEquals role (lookupProp directiveArgs "role") = true).
Proof.
  intros Hctx. rewrite (requiresAuthValidation_object _ _ _ _ _ Hctx).
  destruct (truthy (lookupProp props "currentUser")); cbn [negb];
    [| split; [discriminate | intros [[=] _]]].
  destruct (truthy (lookupProp props "correntUser")) eqn:Hco; cbn [andb].
  - destruct (getProp (lookupProp props "correntUser") "role") as [role | e] eqn:Hrole.
    + destruct (strictEquals role (lookupProp directiveArgs "role")) eqn:Heq; cbn [negb].
      * split; [| reflexivity]. intros _. split; [reflexivity |]. right. eauto.
      * split; [discriminate |].
        intros [_ [[=] | (role' & [= <-] & Heq')]]. congruence.
    + cbn [negb]. split; [discriminate |].
      intros [_ [[=] | (role' & [=] & _)]].
  - split; [| reflexivity]. intros _. split; [reflexivity | now left].
Qed.

(** With a [correntUser] of role [USER] in the context, [@auth(role: USER)]
    accepts. *)
Lemma requiresAuthValidation_accepts_iff_witness :
  requiresAuthValidation
    (testArgs (JSObject 0 [("currentUser", JSBoolean true); ("correntUser", dotan)]))
    [("role", JSString "USER")]
    (queryPayload "me"
       (JSObject 0 [("currentUser", JSBoolean true); ("correntUser", dotan)]))
  = Ok tt.
Proof.
  apply (proj2 (requiresAuthValidation_accepts_iff
                  (testArgs (JSObject 0 [("currentUser", JSBoolean true);
                                         ("correntUser", dotan)]))
                  [("role", JSString "USER")]
                  (queryPayload "me"
                     (JSObject 0 [("currentUser", JSBoolean true); ("correntUser", dotan)]))
                  0 [("currentUser", JSBoolean true); ("correntUser", dotan)] eq_refl)).
  split; [reflexivity |]. right. exists (JSString "USER"). split; reflexivity.
Defined.

Lemma toUpperAscii_idempotent (c : Ascii.ascii) :
  toUpperAscii (toUpperAscii c) = toUpperAscii c.
Proof. destruct c as [[] [] [] [] [] [] [] []]; reflexivity. Qed.

Lemma toUpperCase_idempotent (s : string) :
  toUpperCase (toUpperCase s) = toUpperCase s.
Proof.
  induction s as [| c s IH]; cbn; [reflexivity |].
  now rewrite toUpperAscii_idempotent, IH.
Qed.

(** X12: the transformation of [@uppercase] never throws, and what it
    returns has the type of what it was given: a string stays a string, and
    a value of any other type is returned as it is. *)
Theorem uppercaseTransformation_keeps_type
    (executionArgs : ExecutionArgs) (directiveArgs : DirectiveArgs)
    (resolverParams : ResolverPayload) (result : JSValue) :
  exists value,
    uppercaseTransformation executionArgs directiveArgs resolverParams result = Ok value
    /\ typeof value = typeof result
    /\ (typeof result <> "string" -> value = result).
Proof.
  exists (uppercased result). split; [apply uppercaseTransformation_uppercased |].
  split; [now destruct result | apply uppercased_not_string].
Qed.

Lemma toUpperAscii_ascii (c : Ascii.ascii) :
  (Ascii.nat_of_ascii c <? 128)%nat = true ->
  (Ascii.nat_of_ascii (toUpperAscii c) <? 128)%nat = true.
Proof. destruct c as [[] [] [] [] [] [] [] []]; intros H; try exact H; reflexivity. Qed.

Lemma toUpperCase_ascii (s : string) :
  isAsciiString s = true -> isAsciiString (toUpperCase s) = true.
Proof.
  induction s as [| c s IH]; cbn [toUpperCase isAsciiString]; [reflexivity |].
  intros [Hc Hs]%andb_true_iff. apply andb_true_iff.
  split; [now apply toUpperAscii_ascii | now apply IH].
Qed.

(** X13: on the values within the model's reach, that is every value that
    is not a string and every string of ASCII characters, transforming
    twice is transforming once: [@uppercase] applied to its own output
    changes nothing, and that output is again within reach. *)
Theorem uppercaseTransformation_idempotent
    (executionArgs : ExecutionArgs) (directiveArgs : DirectiveArgs)
    (resolverParams : ResolverPayload) (result value : JSValue) :
  (forall s, result = JSString s -> isAsciiString s = true) ->
  uppercaseTransformation executionArgs directiveArgs resolverParams result = Ok value ->
  uppercaseTransformation executionArgs directiveArgs resolverParams value = Ok value
  /\ (forall s, value = JSString s -> isAsciiString s = true).
Proof.
  intros Hascii. rewrite !uppercaseTransformation_uppercased. intros [= <-]. split.
  - f_equal. destruct result; cbn; try reflexivity. now rewrite toUpperCase_idempotent.
  - destruct result; cbn; try discriminate.
    intros s' [= <-]. apply toUpperCase_ascii. now apply Hascii.
Qed.

Lemma uppercaseTransformation_idempotent_witness :
  uppercaseTransformation (testArgs (JSObject 0 [])) []
    (queryPayload "testUpper" (JSObject 0 [])) (JSString "DOTAN")
  = Ok (JSString "DOTAN")
  /\ (forall s, JSString "DOTAN" = JSString s -> isAsciiString s = true).
Proof.
  apply (uppercaseTransformation_idempotent _ _ _ (JSString "dotan")).
  - intros s [= <-]. reflexivity.
  - reflexivity.
Defined.

(** ** The making of the plugin *)

Lemma find_skips {A} (p : A -> bool) (before after : list A) (x : A) :
  (forall a, In a before -> p a = false) ->
  p x = true ->
  find p (before ++ x :: after) = Some x.
Proof.
  intros Hbefore Hx. unfold find.
  induction before as [| y before IH]; cbn.
  - now rewrite Hx.
  - rewrite (Hbefore y (or_introl eq_refl)). apply IH.
    intros a Ha. apply Hbefore. now right.
Qed.

Section Creation.

Variable gqlParse : string -> Result DocumentNode.
Variable valueFromAST :
  ValueNode -> GraphQLInputType -> option (list (string * JSValue)) -> option JSValue.

(** X14: the plugin hooks on the first directive definition of the
    registration's schema text: definitions of other kinds before it are
    skipped and whatever follows it, further directive definitions
    included, is ignored; its name is the one line written to the console. *)
Theorem useRedwoodDirectives_first_directive_definition
    (redwoodDirective : RedwoodDirective) (document : DocumentNode)
    (before after : list DefinitionNode) (name : string) (w : World) :
  gqlParse (rd_schema redwoodDirective) = Ok document ->
  definitions document = (before ++ DirectiveDefinition name :: after)%list ->
  (forall d, In d before -> kind d <> "DirectiveDefinition") ->
  exists plugin,
    useRedwoodDirectives gqlParse valueFromAST redwoodDirective w
    = (Ok plugin, withEvents w [ConsoleLog name])
    /\ forall executionArgs,
         onResolverCalled (onExecute plugin executionArgs)
         = onResolverCalledOf valueFromAST redwoodDirective name executionArgs.
Proof.
  intros Hparse Hdefs Hbefore.
  assert (Hname : directiveNameOf gqlParse redwoodDirective = Ok name).
  { unfold directiveNameOf. rewrite Hparse. cbn [bindR]. rewrite Hdefs.
    rewrite find_skips; [reflexivity | | reflexivity].
    intros d Hd. apply String.eqb_neq. now apply Hbefore. }
  unfold useRedwoodDirectives. rewrite Hname.
  eexists. split; [reflexivity |]. reflexivity.
Qed.

(** X15: when the schema text does not parse, or parses to a document
    without any directive definition, no plugin is made: the call throws,
    the parser's error in the first case and a [TypeError] in the second,
    and nothing is written to the console. *)
Theorem useRedwoodDirectives_without_directive_definition
    (redwoodDirective : RedwoodDirective) (w : World) :
  (forall document,
      gqlParse (rd_schema redwoodDirective) = Ok document ->
      forall d, In d (definitions document) -> kind d <> "DirectiveDefinition") ->
  exists e,
    useRedwoodDirectives gqlParse valueFromAST redwoodDirective w = (Throw e, w)
    /\ (forall e', gqlParse (rd_schema redwoodDirective) = Throw e' -> e = e')
    /\ (forall document,
           gqlParse (rd_schema redwoodDirective) = Ok document ->
           exists message, e = TypeError message).
Proof.
  intros Hnone. unfold useRedwoodDirectives, directiveNameOf.
  destruct (gqlParse (rd_schema redwoodDirective)) as [document | e'] eqn:Hparse.
  - cbn [bindR]. rewrite find_no_match.
    + eexists. split; [reflexivity |]. split; [discriminate | eauto].
    + intros d Hd. apply String.eqb_neq. now apply (Hnone document).
  - exists e'. split; [reflexivity |]. split; [now intros ? [= <-] | discriminate].
Qed.

End Creation.

(** The schema text of [@auth] starts with the enum [Role]; the plugin
    hooks on [auth]. *)
Lemma useRedwoodDirectives_first_directive_definition_witness :
  exists plugin,
    useRedwoodDirectives parseFragment coerceLiteral requiresAuthDirective initialWorld
    = (Ok plugin, withEvents initialWorld [ConsoleLog "auth"])
    /\ forall executionArgs,
         onResolverCalled (onExecute plugin executionArgs)
         = onResolverCalledOf coerceLiteral requiresAuthDirective "auth" executionArgs.
Proof.
  apply (useRedwoodDirectives_first_directive_definition parseFragment coerceLiteral
           requiresAuthDirective
           {| definitions := [ EnumTypeDefinition "Role" ["USER"; "ADMIN"];
                               DirectiveDefinition "auth" ] |}
           [EnumTypeDefinition "Role" ["USER"; "ADMIN"]] [] "auth" initialWorld).
  - reflexivity.
  - reflexivity.
  - intros d [<- | []]. discriminate.
Defined.

(** A schema text that declares the enum only. *)
Lemma useRedwoodDirectives_without_directive_definition_witness :
  exists e,
    useRedwoodDirectives
      (fun _ => Ok {| definitions := [EnumTypeDefinition "Role" ["USER"; "ADMIN"]] |})
      coerceLiteral requiresAuthDirective initialWorld
    = (Throw e, initialWorld).
Proof.
  destruct (useRedwoodDirectives_without_directive_definition
              (fun _ => Ok {| definitions := [EnumTypeDefinition "Role" ["USER"; "ADMIN"]] |})
              coerceLiteral requiresAuthDirective initialWorld) as (e & H & _).
  - intros document [= <-] d [<- | []]. discriminate.
  - exists e. exact H.
Defined.

(** ** The hook and the resolution of a field *)

(** The resolution of a field for which exactly one hook returns a
    function, whatever that hook did to the world. *)
Lemma resolveField_one_hook (payload : ResolverPayload)
    (before after : list (ResolverPayload -> Exec (option AfterResolver)))
    (hook : ResolverPayload -> Exec (option AfterResolver)) (afterFn : AfterResolver)
    (resolver : ResolverPayload -> Result JSValue) (value : JSValue) (w w1 : World) :
  Forall (passes payload) before ->
  Forall (passes payload) after ->
  hook payload w = (Ok (Some afterFn), w1) ->
  resolver payload = Ok value ->
  resolveField (before ++ hook :: after) resolver payload w
  = match afterFn {| result := value; setResult := hostSetResult |}
            {| events := events w1 ++ [ResolverCalled]; resolved := value |} with
    | (Ok _, w') => (Ok (resolved w'), w')
    | (Throw e, w') => (Throw e, w')
    end.
Proof.
  intros Hbefore Hafter Hhook Hvalue.
  assert (Hhooks : callHooks (before ++ hook :: after) payload w = (Ok [afterFn], w1)).
  { rewrite (callHooks_passes_app _ _ _ _ Hbefore).
    cbn [callHooks]. unfold bind at 1. rewrite Hhook.
    unfold bind at 1. rewrite (callHooks_passes _ _ _ Hafter). reflexivity. }
  unfold resolveField. unfold bind at 1. rewrite Hhooks.
  unfold bind, emit, lift. cbn. rewrite Hvalue. cbn.
  unfold bind, ret. cbn.
  destruct (afterFn _ _) as [[[] | e] w']; reflexivity.
Qed.

Section Resolution.

Variable valueFromAST :
  ValueNode -> GraphQLInputType -> option (list (string * JSValue)) -> option JSValue.

(** X16: an annotation whose directive is not defined on the schema of the
    execution is inert: the hook calls no callback, not even a validation
    that would refuse, and the field resolves to the resolver's value. *)
Theorem annotation_without_definition_is_inert
    (redwoodDirective : RedwoodDirective) (name : string)
    (executionArgs : ExecutionArgs) (payload : ResolverPayload)
    (directiveNode : DirectiveNode) (resolver : ResolverPayload -> Result JSValue)
    (value : JSValue) (w : World) :
  getDirective (info payload) name = Ok (Some directiveNode) ->
  getDirectiveDef (ea_schema executionArgs) (dir_name directiveNode) = None ->
  resolver payload = Ok value ->
  onResolverCalledOf valueFromAST redwoodDirective name executionArgs payload w
  = (Ok None, w)
  /\ resolveField [onResolverCalledOf valueFromAST redwoodDirective name executionArgs]
       resolver payload w
     = (Ok value, {| events := events w ++ [ResolverCalled]; resolved := value |}).
Proof.
  intros Hnode Hdef Hvalue.
  assert (Hpass : passes payload
            (onResolverCalledOf valueFromAST redwoodDirective name executionArgs)).
  { intros w'. unfold onResolverCalledOf, bind, lift. rewrite Hnode, Hdef. reflexivity. }
  split; [apply Hpass |].
  rewrite resolveField_all_pass; [now rewrite Hvalue |].
  repeat constructor. exact Hpass.
Qed.

(** X17: the hook that runs before the resolver never touches the result
    variable, and the only callback it may call is the validation, once:
    the events it adds are none or one validation call. *)
Theorem onResolverCalledOf_effects
    (redwoodDirective : RedwoodDirective) (name : string)
    (executionArgs : ExecutionArgs) (payload : ResolverPayload) (w : World) :
  let w' := snd (onResolverCalledOf valueFromAST redwoodDirective name executionArgs
                   payload w) in
  resolved w' = resolved w
  /\ (events w' = events w
      \/ exists directiveArgs,
           validation redwoodDirective <> None
           /\ events w' = (events w ++ [ValidationCalled directiveArgs])%list).
Proof.
  cbn zeta. unfold onResolverCalledOf, bind, lift.
  destruct (getDirective (info payload) name) as [[directiveNode |] | e];
    [| now split; [| left] ..].
  destruct (getDirectiveDef _ _) as [directive |]; [| now split; [| left]].
  destruct (decodeDirectiveArgs _ _ _ _) as [directiveArgs | e]; [| now split; [| left]].
  destruct (validation redwoodDirective) as [validate |] eqn:Hval;
    [| now split; [| left]].
  unfold emit, ret. cbn.
  destruct (validate executionArgs directiveArgs payload); cbn;
    (split; [reflexivity | right; exists directiveArgs; now split]).
Qed.

(** The hook on a field that carries the directive, when the validation,
    if there is one, accepts. *)
Lemma onResolverCalledOf_accepts (redwoodDirective : RedwoodDirective) (name : string)
    (executionArgs : ExecutionArgs) (payload : ResolverPayload)
    (directiveNode : DirectiveNode) (directive : GraphQLDirective)
    (directiveArgs : DirectiveArgs) (w : World) :
  getDirective (info payload) name = Ok (Some directiveNode) ->
  getDirectiveDef (ea_schema executionArgs) (dir_name directiveNode) = Some directive ->
  decodeDirectiveArgs valueFromAST directive directiveNode executionArgs = Ok directiveArgs ->
  (forall validate,
      validation redwoodDirective = Some validate ->
      validate executionArgs directiveArgs payload = Ok tt) ->
  onResolverCalledOf valueFromAST redwoodDirective name executionArgs payload w
  = (Ok (Some (afterResolver redwoodDirective executionArgs directiveArgs payload)),
     withEvents w (validationEvents redwoodDirective directiveArgs)).
Proof.
  intros Hnode Hdef Hargs Hval.
  rewrite (onResolverCalledOf_found _ _ _ _ _ _ _ _ Hnode Hdef), Hargs. cbn zeta.
  unfold validationEvents.
  destruct (validation redwoodDirective) as [validate |].
  - now rewrite (Hval validate eq_refl).
  - unfold withEvents. rewrite app_nil_r. now destruct w.
Qed.

Lemma resolveField_accepted (redwoodDirective : RedwoodDirective) (name : string)
    (executionArgs : ExecutionArgs) (payload : ResolverPayload)
    (directiveNode : DirectiveNode) (directive : GraphQLDirective)
    (directiveArgs : DirectiveArgs)
    (before after : list (ResolverPayload -> Exec (option AfterResolver)))
    (resolver : ResolverPayload -> Result JSValue) (value : JSValue) (w : World) :
  getDirective (info payload) name = Ok (Some directiveNode) ->
  getDirectiveDef (ea_schema executionArgs) (dir_name directiveNode) = Some directive ->
  decodeDirectiveArgs valueFromAST directive directiveNode executionArgs = Ok directiveArgs ->
  (forall validate,
      validation redwoodDirective = Some validate ->
      validate executionArgs directiveArgs payload = Ok tt) ->
  Forall (passes payload) before ->
  Forall (passes payload) after ->
  resolver payload = Ok value ->
  resolveField
    (before ++ onResolverCalledOf valueFromAST redwoodDirective name executionArgs :: after)
    resolver payload w
  = match afterResolver redwoodDirective executionArgs directiveArgs payload
            {| result := value; setResult := hostSetResult |}
            {| events := events w ++ validationEvents redwoodDirective directiveArgs
                           ++ [ResolverCalled];
               resolved := value |} with
    | (Ok _, w') => (Ok (resolved w'), w')
    | (Throw e, w') => (Throw e, w')
    end.
Proof.
  intros Hnode Hdef Hargs Hval Hbefore Hafter Hvalue.
  rewrite (resolveField_one_hook payload before after _ _ resolver value w _
             Hbefore Hafter
             (onResolverCalledOf_accepts _ _ _ _ _ _ _ w Hnode Hdef Hargs Hval) Hvalue).
  cbn [withEvents events]. now rewrite <- app_assoc.
Qed.

(** X18: a registration without transformation leaves the value alone: on
    a field that carries its directive, when the validation (if any)
    accepts, the field's value is the resolver's, [setResult] is not
    called, and the validation was called before the resolver. *)
Theorem field_value_without_transformation
    (redwoodDirective : RedwoodDirective) (name : string)
    (executionArgs : ExecutionArgs) (payload : ResolverPayload)
    (directiveNode : DirectiveNode) (directive : GraphQLDirective)
    (directiveArgs : DirectiveArgs)
    (before after : list (ResolverPayload -> Exec (option AfterResolver)))
    (resolver : ResolverPayload -> Result JSValue) (value : JSValue) (w : World) :
  getDirective (info payload) name = Ok (Some directiveNode) ->
  getDirectiveDef (ea_schema executionArgs) (dir_name directiveNode) = Some directive ->
  decodeDirectiveArgs valueFromAST directive directiveNode executionArgs = Ok directiveArgs ->
  (forall validate,
      validation redwoodDirective = Some validate ->
      validate executionArgs directiveArgs payload = Ok tt) ->
  transformation redwoodDirective = None ->
  Forall (passes payload) before ->
  Forall (passes payload) after ->
  resolver payload = Ok value ->
  resolveField
    (before ++ onResolverCalledOf valueFromAST redwoodDirective name executionArgs :: after)
    resolver payload w
  = (Ok value,
     {| events := events w ++ validationEvents redwoodDirective directiveArgs
                    ++ [ResolverCalled];
        resolved := value |}).
Proof.
  intros Hnode Hdef Hargs Hval Htrans Hbefore Hafter Hvalue.
  rewrite (resolveField_accepted _ _ _ _ _ _ _ _ _ _ _ w
             Hnode Hdef Hargs Hval Hbefore Hafter Hvalue).
  unfold afterResolver. rewrite Htrans. reflexivity.
Qed.

(** X19: a registration with a transformation replaces the value: on a
    field that carries its directive, when the validation (if any)
    accepts, the transformation is called once, after the resolver and
    with the resolver's value, [setResult] is called with what it returns,
    and that is the field's value. *)
Theorem field_value_with_transformation
    (redwoodDirective : RedwoodDirective) (name : string)
    (executionArgs : ExecutionArgs) (payload : ResolverPayload)
    (directiveNode : DirectiveNode) (directive : GraphQLDirective)
    (directiveArgs : DirectiveArgs)
    (transform : ExecutionArgs -> DirectiveArgs -> ResolverPayload -> JSValue
                 -> Result JSValue)
    (before after : list (ResolverPayload -> Exec (option AfterResolver)))
    (resolver : ResolverPayload -> Result JSValue) (value value' : JSValue) (w : World) :
  getDirective (info payload) name = Ok (Some directiveNode) ->
  getDirectiveDef (ea_schema executionArgs) (dir_name directiveNode) = Some directive ->
  decodeDirectiveArgs valueFromAST directive directiveNode executionArgs = Ok directiveArgs ->
  (forall validate,
      validation redwoodDirective = Some validate ->
      validate executionArgs directiveArgs payload = Ok tt) ->
  transformation redwoodDirective = Some transform ->
  transform executionArgs directiveArgs payload value = Ok value' ->
  Forall (passes payload) before ->
  Forall (passes payload) after ->
  resolver payload = Ok value ->
  resolveField
    (before ++ onResolverCalledOf valueFromAST redwoodDirective name executionArgs :: after)
    resolver payload w
  = (Ok value',
     {| events := events w ++ validationEvents redwoodDirective directiveArgs
                    ++ [ResolverCalled; TransformationCalled directiveArgs value;
                        SetResultCalled value'];
        resolved := value' |}).
Proof.
  intros Hnode Hdef Hargs Hval Htrans Hout Hbefore Hafter Hvalue.
  rewrite (resolveField_accepted _ _ _ _ _ _ _ _ _ _ _ w
             Hnode Hdef Hargs Hval Hbefore Hafter Hvalue).
  unfold afterResolver. rewrite Htrans. cbn [result setResult].
  unfold bind, emit, lift. cbn [events resolved]. rewrite Hout.
  unfold hostSetResult. cbn [events resolved].
  rewrite <- !app_assoc. reflexivity.
Qed.

End Resolution.

(** ** The demonstration, again *)

(** [secretPassword] carries [@auth(role: ADMIN)]; on a schema without the
    definition of [auth] it is resolved for the empty context. *)
Lemma annotation_without_definition_is_inert_witness :
  onResolverCalledOf coerceLiteral requiresAuthDirective "auth"
    (undeclaredArgs (JSObject 0 [])) (queryPayload "secretPassword" (JSObject 0 []))
    initialWorld
  = (Ok None, initialWorld)
  /\ resolveField
       [onResolverCalledOf coerceLiteral requiresAuthDirective "auth"
          (undeclaredArgs (JSObject 0 []))]
       (resolvers "secretPassword") (queryPayload "secretPassword" (JSObject 0 []))
       initialWorld
     = (Ok (JSString "123456"),
        {| events := events initialWorld ++ [ResolverCalled];
           resolved := JSString "123456" |}).
Proof.
  apply (annotation_without_definition_is_inert coerceLiteral requiresAuthDirective "auth"
           (undeclaredArgs (JSObject 0 [])) (queryPayload "secretPassword" (JSObject 0 []))
           (authAnnotation "ADMIN")).
  - vm_compute. reflexivity.
  - reflexivity.
  - reflexivity.
Defined.

(** The first execution of the file: [me] for the user [dotan]. *)
Lemma field_value_without_transformation_witness :
  resolveField
    ([] ++ onResolverCalledOf coerceLiteral requiresAuthDirective "auth"
             (testArgs (JSObject 0 [("currentUser", dotan)]))
        :: [onResolverCalledOf coerceLiteral uppercaseDirective "uppercase"
              (testArgs (JSObject 0 [("currentUser", dotan)]))])
    (resolvers "me") (queryPayload "me" (JSObject 0 [("currentUser", dotan)]))
    initialWorld
  = (Ok dotan,
     {| events := events initialWorld
                    ++ validationEvents requiresAuthDirective [("role", JSString "USER")]
                    ++ [ResolverCalled];
        resolved := dotan |}).
Proof.
  apply (field_value_without_transformation coerceLiteral requiresAuthDirective "auth"
           (testArgs (JSObject 0 [("currentUser", dotan)]))
           (queryPayload "me" (JSObject 0 [("currentUser", dotan)]))
           (authAnnotation "USER") authDefinition [("role", JSString "USER")]).
  - vm_compute. reflexivity.
  - reflexivity.
  - reflexivity.
  - intros validate [= <-]. reflexivity.
  - reflexivity.
  - constructor.
  - repeat constructor.
  - reflexivity.
Defined.

(** The third execution of the file: [testUpper]. *)
Lemma field_value_with_transformation_witness :
  resolveField
    ([onResolverCalledOf coerceLiteral requiresAuthDirective "auth"
        (testArgs (JSObject 0 []))]
       ++ onResolverCalledOf coerceLiteral uppercaseDirective "uppercase"
            (testArgs (JSObject 0 []))
       :: [])
    (resolvers "testUpper") (queryPayload "testUpper" (JSObject 0 [])) initialWorld
  = (Ok (JSString "DOTAN"),
     {| events := events initialWorld ++ validationEvents uppercaseDirective []
                    ++ [ResolverCalled; TransformationCalled [] (JSString "dotan");
                        SetResultCalled (JSString "DOTAN")];
        resolved := JSString "DOTAN" |}).
Proof.
  apply (field_value_with_transformation coerceLiteral uppercaseDirective "uppercase"
           (testArgs (JSObject 0 [])) (queryPayload "testUpper" (JSObject 0 []))
           uppercaseAnnotation uppercaseDefinition [] uppercaseTransformation).
  - vm_compute. reflexivity.
  - reflexivity.
  - reflexivity.
  - intros validate [=].
  - reflexivity.
  - reflexivity.
  - repeat constructor.
  - constructor.
  - reflexivity.
Defined.

Lemma testPlugins_made :
  testPlugins initialWorld
  = (Ok [authPlugin; uppercasePlugin],
     withEvents initialWorld [ConsoleLog "auth"; ConsoleLog "uppercase"]).
Proof. reflexivity. Qed.

(** The resolution of a field of [Query] that carries [@auth] and not
    [@uppercase], for a context the validation accepts. *)
Lemma executeQueryField_auth (fieldName role : string) (ref : nat)
    (props : list (string * JSValue)) (value : JSValue) :
  getDirective (queryInfo fieldName) "auth" = Ok (Some (authAnnotation role)) ->
  getDirective (queryInfo fieldName) "uppercase" = Ok None ->
  truthy (lookupProp props "currentUser") = true ->
  truthy (lookupProp props "correntUser") = false ->
  resolvers fieldName (queryPayload fieldName (JSObject ref props)) = Ok value ->
  fst (executeQueryField fieldName (JSObject ref props) initialWorld) = Ok value.
Proof.
  intros Hauth Hupper Hcur Hcor Hvalue.
  unfold executeQueryField. unfold bind at 1. rewrite testPlugins_made.
  change (hooksOf [authPlugin; uppercasePlugin] (testArgs (JSObject ref props)))
    with ([] ++ onResolverCalledOf coerceLiteral requiresAuthDirective "auth"
                  (testArgs (JSObject ref props))
             :: [onResolverCalledOf coerceLiteral uppercaseDirective "uppercase"
                   (testArgs (JSObject ref props))])%list.
  rewrite (resolveField_accepted coerceLiteral requiresAuthDirective "auth"
             (testArgs (JSObject ref props)) (queryPayload fieldName (JSObject ref props))
             (authAnnotation role) authDefinition [("role", JSString role)]
             [] _ _ value).
  - reflexivity.
  - exact Hauth.
  - reflexivity.
  - reflexivity.
  - intros validate [= <-].
    rewrite (requiresAuthValidation_object (testArgs (JSObject ref props)) _ _
               ref props eq_refl), Hcur, Hcor.
    reflexivity.
  - constructor.
  - repeat constructor. now apply onResolverCalledOf_absent.
  - exact Hvalue.
Qed.

(** X20: in the demonstration of the file, the fields of [Query] that
    carry [@auth] are open to every authenticated user, whatever the role
    the annotation asks for: with a truthy [currentUser] and no truthy
    [correntUser] in the context, [secretPassword], annotated
    [@auth(role: ADMIN)], resolves to the password and [me] to the user,
    whatever the user's role. *)
Theorem auth_fields_open_to_every_user (ref : nat) (props : list (string * JSValue)) :
  truthy (lookupProp props "currentUser") = true ->
  truthy (lookupProp props "correntUser") = false ->
  fst (executeQueryField "secretPassword" (JSObject ref props) initialWorld)
  = Ok (JSString "123456")
  /\ fst (executeQueryField "me" (JSObject ref props) initialWorld)
     = Ok (lookupProp props "currentUser").
Proof.
  intros Hcur Hcor. split.
  - apply (executeQueryField_auth "secretPassword" "ADMIN"); try assumption;
      try reflexivity; vm_compute; reflexivity.
  - apply (executeQueryField_auth "me" "USER"); try assumption;
      try reflexivity; vm_compute; reflexivity.
Qed.

(** The user [dotan], of role [USER], reads [secretPassword]. *)
Lemma auth_fields_open_to_every_user_witness :
  fst (executeQueryField "secretPassword" (JSObject 0 [("currentUser", dotan)])
         initialWorld)
  = Ok (JSString "123456")
  /\ fst (executeQueryField "me" (JSObject 0 [("currentUser", dotan)]) initialWorld)
     = Ok dotan.
Proof.
  apply (auth_fields_open_to_every_user 0 [("currentUser", dotan)]); reflexivity.
Defined.

End RedwoodCoverage.
